(** * actions-dashboard: run-window aggregation and card-grid layout

    A shallow embedding of [main.go] (package [main] of the
    actions-dashboard [gh] extension) and the properties of its summary
    statistics and of its card layout.

    Conventions of the embedding:
    - Go's [int] and [time.Duration] are 64-bit signed integers.  They are
      values of [Z]; every arithmetic operation of the source that can leave
      the 64-bit range is written with [wrap64].
    - A [time.Time] is an instant, a number of nanoseconds on the time line.
    - A Go [string] is a sequence of bytes: Rocq's [string].
    - A run-time panic (slice bounds, index out of range, [make] with a bad
      length) is the result [None].
    - The float64 computation of [Duration.Seconds] is carried out on
      Rocq's binary64 floats, with its rounding.  The [math.Ceil] of a
      quotient of two lengths is taken exactly.
    - A slice of pointers is a list of options: [None] is a nil pointer.
    - The external [gh] command and [json.Unmarshal] are parameters; the
      calls made to [gh] are recorded in a log. *)

From Stdlib Require Import ZArith String Ascii Lia.
From stdpp Require Import base list strings.
From Stdlib Require Uint63 PrimFloat FloatOps SpecFloat.

Local Open Scope Z_scope.

(** ** Go integers *)

Module GoInt.

Definition minInt64 : Z := - 2 ^ 63.
Definition maxInt64 : Z := 2 ^ 63 - 1.

(** Two's-complement wrap-around of a mathematical integer to 64 bits. *)
Definition wrap64 (z : Z) : Z := (z + 2 ^ 63) mod 2 ^ 64 - 2 ^ 63.

Definition isInt64 (z : Z) : Prop := minInt64 <= z <= maxInt64.

Definition add64 (a b : Z) : Z := wrap64 (a + b).
Definition sub64 (a b : Z) : Z := wrap64 (a - b).

(** Go's [/] on integers truncates toward zero. *)
Definition quo64 (a b : Z) : Z := wrap64 (Z.quot a b).

End GoInt.
Import GoInt.

(** ** Conversions between [int] and [float64] *)

Module GoFloat.

(** [float64(z)] for an integer below [2^63] in magnitude (the operands of
    [Duration.Seconds] are below [2^34]): the nearest binary64, ties to
    even. *)
Definition float64_of_int (z : Z) : PrimFloat.float :=
  if z <? 0 then PrimFloat.opp (PrimFloat.of_uint63 (Uint63.of_Z (- z)))
  else PrimFloat.of_uint63 (Uint63.of_Z z).

(** [int(f)]: the fraction is dropped (truncation toward zero).  For an
    infinity or a NaN Go leaves the result to the implementation; the value
    here is the one of amd64.  [Duration.Seconds] returns neither. *)
Definition int_of_float64 (f : PrimFloat.float) : Z :=
  match FloatOps.Prim2SF f with
  | SpecFloat.S754_zero _ => 0
  | SpecFloat.S754_finite negative m e =>
      let magnitude :=
        if 0 <=? e then Z.pos m * 2 ^ e else Z.pos m / 2 ^ (- e) in
      if negative then - magnitude else magnitude
  | _ => minInt64
  end.

End GoFloat.

(** ** The parts of package [time] that the program uses *)

Module GoTime.

Definition Second : Z := 1000000000.
Definition Hour : Z := 3600 * Second.

Definition minDuration : Z := minInt64.
Definition maxDuration : Z := maxInt64.

(** [t.Sub(u)]: the difference of two instants, saturated to the range of
    a [Duration]. *)
Definition Sub (t u : Z) : Z :=
  if t - u <? minDuration then minDuration
  else if maxDuration <? t - u then maxDuration
  else t - u.

(** [time.Since(t)] is [time.Now().Sub(t)]; the reading of the clock is the
    argument [now]. *)
Definition Since (now t : Z) : Z := Sub now t.

(** [d.Seconds()]: [sec := d / Second; nsec := d % Second] and the float64
    [float64(sec) + float64(nsec)/1e9], each operation rounded to the
    nearest binary64. *)
Definition Seconds (d : Z) : PrimFloat.float :=
  PrimFloat.add
    (GoFloat.float64_of_int (Z.quot d Second))
    (PrimFloat.div (GoFloat.float64_of_int (Z.rem d Second))
                   (GoFloat.float64_of_int 1000000000)).

(** [int(d.Seconds())].  Where the sum of [Seconds] rounds up to the next
    whole number this is one second more than [d] truncated to seconds. *)
Definition SecondsInt (d : Z) : Z := GoFloat.int_of_float64 (Seconds d).

(** The largest count of seconds that [ParseDuration] accepts:
    [1<<63 / unit] for the unit ["s"]. *)
Definition maxParseSeconds : Z := 2 ^ 63 / Second.

(** [d, _ := time.ParseDuration(fmt.Sprintf("%ds", n))].  The string is an
    optional minus sign, the decimal digits of [|n|] and the unit ["s"].
    [ParseDuration] reads the digits as [v], fails when
    [v > 1<<63 / unit], and otherwise returns [v * unit] with the sign.
    On failure it returns the zero duration and an error, which the caller
    drops. *)
Definition ParseSeconds (n : Z) : Z :=
  if maxParseSeconds <? Z.abs n then 0 else n * Second.

End GoTime.

(** ** Data model *)

Definition defaultMaxRuns : Z := 5.
Definition defaultWorkflowNameLength : Z := 17.
Definition defaultApiCacheTime : string := "60m".

Record run := {
  Finished : Z;        (* time.Time *)
  Elapsed : Z;         (* time.Duration *)
  Status : string;
  Conclusion : string;
  URL : string
}.

Record workflow := {
  Name : string;
  Runs : list run;
  BillableMs : Z       (* int *)
}.

Record repositoryData := {
  RepoName : string;   (* field Name, json "full_name" *)
  Private : bool;
  Workflows : list workflow
}.

(** ** Rendering of the health line *)

(** The three lipgloss styles of [RenderHealth], by their foreground. *)
Inductive style := successStyle | neutralStyle | failedStyle.

(** [st.Render(text)]: a piece of styled text.  [RenderHealth] appends one
    such piece to [results] per run it examines. *)
Record styled := Render { styleOf : style; textOf : string }.

Definition isCompleted (s : string) : bool := String.eqb s "completed".

(** The [switch r.Conclusion] of [RenderHealth]. *)
Definition renderConclusion (c : string) : styled :=
  if String.eqb c "success" then Render successStyle "✓"
  else if String.eqb c "skipped" || String.eqb c "cancelled"
          || String.eqb c "neutral" then Render neutralStyle "-"
  else Render failedStyle "x".

(** The body of [for i, r := range w.Runs] in [RenderHealth]; [i] is the
    index of the head of [rs]. *)
Fixpoint RenderHealth_loop (i : nat) (rs : list run) (results : list styled)
  : list styled :=
  match rs with
  | [] => results
  | r :: rs' =>
      if defaultMaxRuns <? Z.of_nat i then results             (* break *)
      else if negb (isCompleted (Status r)) then
        RenderHealth_loop (S i) rs' (results ++ [Render neutralStyle "-"])
      else
        RenderHealth_loop (S i) rs' (results ++ [renderConclusion (Conclusion r)])
  end.

Definition RenderHealth (w : workflow) : list styled :=
  RenderHealth_loop 0 (Runs w) [].

(** ** Average elapsed time *)

(** The body of [for i, r := range w.Runs] in [AverageElapsed]. *)
Fixpoint AverageElapsed_loop (i : nat) (rs : list run) (totalTime : Z) : Z :=
  match rs with
  | [] => totalTime
  | r :: rs' =>
      if defaultMaxRuns <? Z.of_nat i then totalTime           (* break *)
      else AverageElapsed_loop (S i) rs'
             (add64 totalTime (GoTime.SecondsInt (Elapsed r)))
  end.

Definition AverageElapsed (w : workflow) : Z :=
  let totalTime := AverageElapsed_loop 0 (Runs w) 0 in
  let averageTime := quo64 totalTime defaultMaxRuns in
  GoTime.ParseSeconds averageTime.

(** ** Truncation of workflow names *)

(** [name[:length]]: panics unless [0 <= length <= len(name)]. *)
Definition slicePrefix (name : string) (length : Z) : option string :=
  if (length <? 0) || (Z.of_nat (String.length name) <? length) then None
  else Some (substring 0 (Z.to_nat length) name).

Definition truncateWorkflowName (name : string) (length : Z) : option string :=
  if length <? Z.of_nat (String.length name) then
    match slicePrefix name length with
    | Some kept => Some (kept +:+ "...")
    | None => None
    end
  else Some name.

(** ** The card grid of [_main] *)

Section CardGrid.

(** [cardStyle.Render(w.RenderCard())]: the text of one card.  The layout
    does not look inside it. *)
Variable renderCard : workflow -> string.

(** [int(math.Ceil(float64(n) / float64(cardsPerRow)))].  The quotient is
    taken exactly; float64 rounding is not modelled (both operands are exact
    in float64 below [2^53]).  With [cardsPerRow = 0] the
    quotient is an infinity or a NaN, whose conversion to [int] Go leaves
    to the implementation: no value is given for it. *)
Definition totalRowsOf (n : nat) (cardsPerRow : Z) : option Z :=
  if cardsPerRow =? 0 then None
  else Some (- ((- Z.of_nat n) / cardsPerRow)).

(** [make([][]string, totalRows)]: [totalRows] nil rows; panics on a
    negative length. *)
Definition make (totalRows : Z) : option (list (list string)) :=
  if totalRows <? 0 then None
  else Some (replicate (Z.to_nat totalRows) []).

Record gridState := {
  cardRows : list (list string);
  rowIndex : nat
}.

(** One iteration of [for _, w := range r.Workflows].  Both uses of
    [cardRows[rowIndex]] are bounds-checked. *)
Definition walkStep (cardsPerRow : Z) (st : gridState) (w : workflow)
  : option gridState :=
  match cardRows st !! rowIndex st with
  | None => None
  | Some row =>
      let rowIndex' :=
        if Z.of_nat (length row) =? cardsPerRow then S (rowIndex st)
        else rowIndex st in
      match cardRows st !! rowIndex' with
      | None => None
      | Some row' =>
          Some {| cardRows := <[rowIndex' := row' ++ [renderCard w]]> (cardRows st);
                  rowIndex := rowIndex' |}
      end
  end.

Fixpoint walk (cardsPerRow : Z) (st : gridState) (ws : list workflow)
  : option gridState :=
  match ws with
  | [] => Some st
  | w :: ws' =>
      match walkStep cardsPerRow st w with
      | None => None
      | Some st' => walk cardsPerRow st' ws'
      end
  end.

Definition initGrid (rows : list (list string)) : gridState :=
  {| cardRows := rows; rowIndex := 0 |}.

(** Lines 215-225 of [_main]: the rows of cards of one repository. *)
Definition cardGrid (cardsPerRow : Z) (ws : list workflow)
  : option (list (list string)) :=
  match totalRowsOf (length ws) cardsPerRow with
  | None => None
  | Some totalRows =>
      match make totalRows with
      | None => None
      | Some rows =>
          match walk cardsPerRow (initGrid rows) ws with
          | None => None
          | Some st => Some (cardRows st)
          end
      end
  end.

(** The rows printed for one repository: a repository without workflows
    is skipped before the grid is built. *)
Definition repoCardRows (cardsPerRow : Z) (r : repositoryData)
  : option (list (list string)) :=
  if Nat.eqb (length (Workflows r)) 0 then Some []
  else cardGrid cardsPerRow (Workflows r).

End CardGrid.

(** [columnWidth] and [cardsPerRow] of [_main], from the terminal width. *)
Definition columnWidth : Z := defaultWorkflowNameLength + 5.
Definition cardsPerRowOf (terminalWidth : Z) : Z :=
  wrap64 (Z.quot terminalWidth columnWidth - 1).

(** ** Fetching the workflows of a repository *)

(** The payloads that [getWorkflows] decodes. *)
Record workflowsPayload := {
  wp_Id : Z;
  wp_State : string;
  wp_Name : string;
  wp_URL : string
}.

Record runPayload := {
  rp_Id : Z;
  CreatedAt : Z;       (* time.Time *)
  UpdatedAt : Z;       (* time.Time *)
  rp_Status : string;
  rp_Conclusion : string;
  rp_URL : string
}.

(** [billablePayload]: the three [total_ms] fields. *)
Record billablePayload := {
  MacOs : Z;
  Windows : Z;
  Ubuntu : Z
}.

Inductive error :=
| GhFailed (args : list string)
| JsonFailed
| Errorf (msg : string) (cause : error).

(** A computation that calls [gh]: it extends the log of the calls made so
    far and returns a value or an error. *)
Definition Gh (A : Type) : Type :=
  list (list string) -> list (list string) * (error + A).

Definition ret {A} (a : A) : Gh A := fun log => (log, inr a).
Definition throw {A} (e : error) : Gh A := fun log => (log, inl e).

Definition bind {A B} (c : Gh A) (k : A -> Gh B) : Gh B :=
  fun log =>
    match c log with
    | (log', inl e) => (log', inl e)
    | (log', inr a) => k a log'
    end.

(** [if err != nil { return nil, fmt.Errorf(msg, err) }] *)
Definition orErrorf {A} (msg : string) (c : Gh A) : Gh A :=
  fun log =>
    match c log with
    | (log', inl e) => (log', inl (Errorf msg e))
    | r => r
    end.

Notation "'let*' x ':=' c 'in' k" := (bind c (fun x => k))
  (at level 10, x name, c at level 100, k at level 200).

Section Fetch.

(** The [gh] executable: standard output, or an error. *)
Variable gh : list string -> error + string.
(** [json.Unmarshal] at the three payload types. *)
Variable unmarshalWorkflows : string -> option (list workflowsPayload).
Variable unmarshalRuns : string -> option (list runPayload).
Variable unmarshalBillable : string -> option billablePayload.
(** The reading of the clock during the fetch. *)
Variable now : Z.

Definition callGh (args : list string) : Gh string :=
  fun log => (log ++ [args], gh args).

Definition decode {A} (unmarshal : string -> option A) (stdout : string)
  : Gh A :=
  match unmarshal stdout with
  | Some a => ret a
  | None => throw JsonFailed
  end.

(** The loop [for _, r := range rs] that builds [runs]. *)
Fixpoint filterRuns_loop (last : Z) (rs : list runPayload) (runs : list run)
  : list run :=
  match rs with
  | [] => runs
  | r :: rs' =>
      if isCompleted (rp_Status r) then
        let rr := {| Finished := UpdatedAt r;
                     Elapsed := GoTime.Sub (UpdatedAt r) (CreatedAt r);
                     Status := rp_Status r;
                     Conclusion := rp_Conclusion r;
                     URL := rp_URL r |} in
        let finishedAgo := GoTime.Since now (Finished rr) in
        if 0 <? sub64 last finishedAgo
        then filterRuns_loop last rs' (runs ++ [rr])
        else filterRuns_loop last rs' runs
      else filterRuns_loop last rs' runs
  end.

Definition filterRuns (last : Z) (rs : list runPayload) : list run :=
  filterRuns_loop last rs [].

(** The loop [for _, r := range runs] under [if repoData.Private]. *)
Fixpoint billable_loop (runs : list run) (totalMs : Z) : Gh Z :=
  match runs with
  | [] => ret totalMs
  | r :: runs' =>
      let runTimingPath := URL r +:+ "/timing" in
      let* stdout := orErrorf "could not call gh: %w"
          (callGh ["api"; "--cache"; defaultApiCacheTime; runTimingPath;
                   "--jq"; ".billable"]) in
      let* bp := orErrorf "could not parse json: %w"
          (decode unmarshalBillable stdout) in
      billable_loop runs'
        (add64 totalMs (add64 (add64 (MacOs bp) (Windows bp)) (Ubuntu bp)))
  end.

(** The loop [for _, w := range p]; [totalMs] is declared before it. *)
Fixpoint workflows_loop (private : bool) (last : Z)
    (p : list workflowsPayload) (totalMs : Z) (out : list workflow)
  : Gh (list workflow) :=
  match p with
  | [] => ret out
  | w :: p' =>
      if String.prefix "disabled" (wp_State w) then
        workflows_loop private last p' totalMs out           (* continue *)
      else
        let runsPath := wp_URL w +:+ "/runs" in
        let* stdout := orErrorf "could not call gh: %w"
            (callGh ["api"; "--cache"; defaultApiCacheTime; runsPath;
                     "--jq"; ".workflow_runs"]) in
        let* rs := orErrorf "could not parse json: %w"
            (decode unmarshalRuns stdout) in
        let runs := filterRuns last rs in
        let* totalMs' :=
          (if private then billable_loop runs totalMs else ret totalMs) in
        workflows_loop private last p' totalMs'
          (out ++ [ {| Name := wp_Name w; Runs := runs;
                       BillableMs := totalMs' |} ])
  end.

Definition getWorkflows (repoData : repositoryData) (last : Z)
  : Gh (list workflow) :=
  let workflowsPath := "repos/" +:+ RepoName repoData +:+ "/actions/workflows" in
  let* stdout :=
    callGh ["api"; "--cache"; defaultApiCacheTime; workflowsPath;
            "--jq"; ".workflows"] in
  let* p := decode unmarshalWorkflows stdout in
  workflows_loop (Private repoData) last p 0 [].

(** The billing fetch is the call of [gh] that selects [.billable]. *)
Definition isBillingFetch (args : list string) : bool :=
  match args with
  | [_; _; _; _; _; jq] => String.eqb jq ".billable"
  | _ => false
  end.

End Fetch.

(** [totalBillableMs] of [_main], over the workflows of one repository. *)
Definition sumBillableMs (totalBillableMs : Z) (workflows : list workflow) : Z :=
  fold_left (fun acc w => add64 acc (BillableMs w)) workflows totalBillableMs.

(** ** Listing the repositories *)

Record options := {
  Repositories : list string;
  Last : Z;            (* time.Duration *)
  Selector : string
}.

(** The errors that [populateRepos] builds with [fmt.Errorf]. *)
Inductive repoError :=
| FetchFailed (owner name : string) (cause : error)
    (* "failed to fetch data for %s/%s: %w" *)
| NotFound (selector : string) (orgErr userErr : error).
    (* "could not find a user or org called '%s': %s; %s" *)

Section Repos.

Variable gh : list string -> error + string.
(** [json.Unmarshal] into one [repositoryData] and into a slice of pointers
    to them, [[]*repositoryData]: a [null] element of the JSON array decodes
    to a nil pointer, [None]. *)
Variable unmarshalRepo : string -> option repositoryData.
Variable unmarshalRepos : string -> option (list (option repositoryData)).

Definition getRepo (owner name : string) : Gh repositoryData :=
  let path := "repos/" +:+ owner +:+ "/" +:+ name in
  let* stdout := callGh gh ["api"; "--cache"; defaultApiCacheTime; path] in
  decode unmarshalRepo stdout.

Definition getAllRepos (path : string) : Gh (list (option repositoryData)) :=
  let* stdout := callGh gh ["api"; "--cache"; defaultApiCacheTime; path] in
  decode unmarshalRepos stdout.

(** The loop [for _, repoName := range opts.Repositories]; [getRepo] returns
    the address of its local [data], never nil. *)
Fixpoint explicitRepos_loop (selector : string) (names : list string)
    (result : list (option repositoryData)) (log : list (list string))
  : list (list string) * (repoError + list (option repositoryData)) :=
  match names with
  | [] => (log, inr result)
  | repoName :: names' =>
      match getRepo selector repoName log with
      | (log', inl err) => (log', inl (FetchFailed selector repoName err))
      | (log', inr repoData) =>
          explicitRepos_loop selector names' (result ++ [Some repoData]) log'
      end
  end.

Definition populateRepos (opts : options) (log : list (list string))
  : list (list string) * (repoError + list (option repositoryData)) :=
  if Nat.ltb 0 (length (Repositories opts)) then
    explicitRepos_loop (Selector opts) (Repositories opts) [] log
  else
    match getAllRepos ("orgs/" +:+ Selector opts +:+ "/repos") log with
    | (log1, inr result) => (log1, inr result)
    | (log1, inl orgErr) =>
        match getAllRepos ("users/" +:+ Selector opts +:+ "/repos") log1 with
        | (log2, inr result) => (log2, inr result)
        | (log2, inl userErr) =>
            (log2, inl (NotFound (Selector opts) orgErr userErr))
        end
    end.

End Repos.

(** ** The dashboard: [_main] *)

(** The errors that [_main] returns. *)
Inductive mainError :=
| RepositoryDataError (cause : repoError)
    (* "could not fetch repository data: %w" *)
| WorkflowsError (cause : error).
    (* the error of [getWorkflows], as it is *)

(** What [_main] prints, line by line, before styling. *)
Inductive line :=
| TitleLine (selector : string) (last : Z)
| SubTitleLine (totalBillableMs : Z)
| BlankLine
| RepoLine (name : string)           (* the name and the link to its actions *)
| CardRowLine (row : list string).   (* [lipgloss.JoinHorizontal] of a row *)

(** How a call of [_main] ends: it returns (an error or [nil]) or it
    panics. *)
Inductive outcome :=
| Returned (err : option mainError)
| Panicked.

Section Main.

Variable gh : list string -> error + string.
Variable unmarshalRepo : string -> option repositoryData.
Variable unmarshalRepos : string -> option (list (option repositoryData)).
Variable unmarshalWorkflows : string -> option (list workflowsPayload).
Variable unmarshalRuns : string -> option (list runPayload).
Variable unmarshalBillable : string -> option billablePayload.
Variable now : Z.
Variable renderCard : workflow -> string.
(** [getTerminalWidth()]: the width of the terminal, or [None] where
    [term.GetSize] fails and [getTerminalWidth] panics. *)
Variable terminalWidth : option Z.

(** The first loop [for _, r := range repos]: the workflows of every
    repository are fetched and stored in it, and their [BillableMs] added to
    [totalBillableMs].  [repos] is a slice of pointers and the loop passes
    [*r] to [getWorkflows]: at a nil pointer the dereference panics, and the
    loop gives [None]. *)
Fixpoint fetch_loop (last : Z) (repos : list (option repositoryData))
    (fetched : list repositoryData) (totalBillableMs : Z)
  : Gh (option (list repositoryData * Z)) :=
  match repos with
  | [] => ret (Some (fetched, totalBillableMs))
  | None :: _ => ret None                                    (* [*r] panics *)
  | Some r :: repos' =>
      let* workflows :=
        getWorkflows gh unmarshalWorkflows unmarshalRuns unmarshalBillable now
          r last in
      fetch_loop last repos'
        (fetched ++ [ {| RepoName := RepoName r; Private := Private r;
                         Workflows := workflows |} ])
        (sumBillableMs totalBillableMs workflows)
  end.

(** The second loop [for _, r := range repos]: the lines of every
    repository that has workflows.  A panic in the grid comes after the
    three lines of the repository's heading. *)
Fixpoint print_loop (cardsPerRow : Z) (repos : list repositoryData)
    (printed : list line) : list line * outcome :=
  match repos with
  | [] => (printed, Returned None)
  | r :: repos' =>
      if Nat.eqb (length (Workflows r)) 0 then
        print_loop cardsPerRow repos' printed                    (* continue *)
      else
        let heading := [BlankLine; RepoLine (RepoName r); BlankLine] in
        match cardGrid renderCard cardsPerRow (Workflows r) with
        | None => (printed ++ heading, Panicked)
        | Some cardRows =>
            print_loop cardsPerRow repos'
              (printed ++ heading ++ map CardRowLine cardRows)
        end
  end.

Definition _main (opts : options) (log : list (list string))
  : list (list string) * (list line * outcome) :=
  match populateRepos gh unmarshalRepo unmarshalRepos opts log with
  | (log1, inl err) => (log1, ([], Returned (Some (RepositoryDataError err))))
  | (log1, inr repos) =>
      match terminalWidth with
      | None => (log1, ([], Panicked))
      | Some width =>
          let cardsPerRow := cardsPerRowOf width in
          match fetch_loop (Last opts) repos [] 0 log1 with
          | (log2, inl err) => (log2, ([], Returned (Some (WorkflowsError err))))
          | (log2, inr None) => (log2, ([], Panicked))
          | (log2, inr (Some (fetched, totalBillableMs))) =>
              (log2,
               print_loop cardsPerRow fetched
                 [TitleLine (Selector opts) (Last opts);
                  SubTitleLine totalBillableMs])
          end
      end
  end.

End Main.

(** ** Reading the arguments: [parseArgs] *)

Inductive argsError :=
| NeedOneArgument           (* "need exactly one argument, ..." *)
| CouldNotParseNumber       (* "could not parse number: %w" *)
| BadReportDuration         (* "report duration should be in hours or duration" *)
| FailedToParseDuration.    (* "failed to parse duration: %w" *)

(** The largest count of hours that [ParseDuration] accepts:
    [1<<63 / unit] for the unit ["h"]. *)
Definition maxParseHours : Z := 2 ^ 63 / GoTime.Hour.

(** [time.ParseDuration(fmt.Sprintf("%dh", n))], as [GoTime.ParseSeconds]
    for the unit ["h"], with the error kept. *)
Definition ParseHours (n : Z) : option Z :=
  if maxParseHours <? Z.abs n then None else Some (n * GoTime.Hour).

Section ParseArgs.

(** [strconv.Atoi] and [time.ParseDuration], with [None] for an error. *)
Variable Atoi : string -> option Z.
Variable ParseDuration : string -> option Z.

(** From [lastVal := *last] to [duration]: [None] is the panic of
    [lastVal[len(lastVal)-1]] on the empty string. *)
Definition parseLast (lastVal : string) : option (argsError + Z) :=
  match String.get (String.length lastVal - 1) lastVal with
  | None => None
  | Some timeUnit =>
      if Ascii.eqb timeUnit "d" then
        match Atoi (substring 0 (String.length lastVal - 1) lastVal) with
        | None => Some (inl CouldNotParseNumber)
        | Some asNum =>
            match ParseHours (wrap64 (asNum * 24)) with
            | None => Some (inl FailedToParseDuration)
            | Some duration => Some (inr duration)
            end
        end
      else if negb (Ascii.eqb timeUnit "h") then Some (inl BadReportDuration)
      else
        match ParseDuration lastVal with
        | None => Some (inl FailedToParseDuration)
        | Some duration => Some (inr duration)
        end
  end.

(** [parseArgs], from the values that the flag library hands over: the
    positional arguments [flag.Args()] and the flags [--repos] and
    [--last]. *)
Definition parseArgs (args repositories : list string) (last : string)
  : option (argsError + options) :=
  if negb (Nat.eqb (length args) 1) then Some (inl NeedOneArgument)
  else
    match parseLast last with
    | None => None
    | Some (inl err) => Some (inl err)
    | Some (inr duration) =>
        Some (inr {| Repositories := repositories; Last := duration;
                     Selector := hd EmptyString args |})
    end.

End ParseArgs.

(** * Vocabulary of the properties and sample data *)

(** What one examined run adds to [results]. *)
Definition renderRun (r : run) : styled :=
  if negb (isCompleted (Status r)) then Render neutralStyle "-"
  else renderConclusion (Conclusion r).

(** The symbols of the health sequence, as the specification names them. *)
Inductive symbol := Pass | Neutral | NeutralUnknown | Fail.

Definition symbolOf (r : run) : symbol :=
  if negb (String.eqb (Status r) "completed") then NeutralUnknown
  else if String.eqb (Conclusion r) "success" then Pass
  else if String.eqb (Conclusion r) "skipped" then Neutral
  else if String.eqb (Conclusion r) "cancelled" then Neutral
  else if String.eqb (Conclusion r) "neutral" then Neutral
  else Fail.

(** How the program draws each symbol.  The two neutral symbols are drawn
    alike, a grey dash. *)
Definition paint (s : symbol) : styled :=
  match s with
  | Pass => Render successStyle "✓"
  | Neutral | NeutralUnknown => Render neutralStyle "-"
  | Fail => Render failedStyle "x"
  end.

(** A completed run with the given conclusion. *)
Definition completedRun (conclusion : string) : run :=
  {| Finished := 0; Elapsed := 0; Status := "completed";
     Conclusion := conclusion; URL := "" |}.

(** A run whose [Elapsed] is a value of the 64-bit type [time.Duration]. *)
Definition wfRun (r : run) : Prop := isInt64 (Elapsed r).

(** The whole seconds of a run's elapsed time. *)
Definition wholeSeconds (r : run) : Z := GoTime.SecondsInt (Elapsed r).

Definition sumZ (l : list Z) : Z := foldr Z.add 0 l.

(** The runs that [RenderHealth] and [AverageElapsed] examine: indices
    [0 .. defaultMaxRuns]. *)
Definition examined (rs : list run) : list run :=
  take (Z.to_nat defaultMaxRuns + 1) rs.

Ltac solve_int64 := vm_compute; split; discriminate.

Ltac solve_wfRuns :=
  repeat (first [apply Forall_nil_2 | apply Forall_cons_2; [solve_int64|]]).

(** The number of characters of a UTF-8 string, as [utf8.RuneCountInString]
    counts them on a valid encoding: the bytes that do not continue a
    character (those outside [0x80 .. 0xBF]). *)
Definition isContinuationByte (c : ascii) : bool :=
  ((128 <=? nat_of_ascii c) && (nat_of_ascii c <? 192))%nat.

Fixpoint runeCount (s : string) : nat :=
  match s with
  | EmptyString => 0
  | String c s' =>
      if isContinuationByte c then runeCount s' else S (runeCount s')
  end.

(** The check mark U+2713, three bytes in UTF-8, and [n] of them in a row. *)
Definition checkMark : string := String "226" (String "156" (String "147" "")).

Fixpoint checkMarks (n : nat) : string :=
  match n with
  | O => ""
  | S n' => checkMark +:+ checkMarks n'
  end.

(** The elapsed time of a run truncated toward zero to whole seconds. *)
Definition truncatedSeconds (r : run) : Z := Z.quot (Elapsed r) GoTime.Second.



Definition sharpRun : workflow :=
  {| Name := "ci";
     Runs := [ {| Finished := 0; Elapsed := 16777219999999999;
                  Status := "completed"; Conclusion := "success"; URL := "" |} ];
     BillableMs := 0 |}.

(** Six runs that each lasted the longest representable duration. *)
Definition longRun : run :=
  {| Finished := 0; Elapsed := GoTime.maxDuration; Status := "completed";
     Conclusion := "success"; URL := "" |}.

Definition sixLongRuns : workflow :=
  {| Name := "ci"; Runs := replicate 6 longRun; BillableMs := 0 |}.

(** Two runs of 90.5 s and 30 s. *)
Definition twoRuns : workflow :=
  {| Name := "ci";
     Runs := [ {| Finished := 0; Elapsed := 90500000000; Status := "completed";
                  Conclusion := "success"; URL := "" |};
               {| Finished := 0; Elapsed := 30000000000; Status := "completed";
                  Conclusion := "failure"; URL := "" |} ];
     BillableMs := 0 |}.


(** The state of the walk after [k] cards, [c] to a row, in a grid of [T]
    rows: [rowIndex] full rows, the current row, and empty rows after it. *)
Definition gridInv (c : Z) (T : nat) (k : nat) (st : gridState) : Prop :=
  exists (full : list (list string)) (cur : list string) (m : nat),
    cardRows st = full ++ cur :: replicate m []
    /\ length full = rowIndex st
    /\ Forall (fun row => Z.of_nat (length row) = c) full
    /\ Z.of_nat (length cur) <= c
    /\ ((0 < k)%nat -> (0 < length cur)%nat)
    /\ c * Z.of_nat (rowIndex st) + Z.of_nat (length cur) = Z.of_nat k
    /\ (rowIndex st + 1 + m = T)%nat.

(** The number of rows for [n] cards, [c >= 1] to a row. *)
Definition ceilRows (n : nat) (c : Z) : nat := Z.to_nat ((Z.of_nat n + c - 1) / c).

(** The [run] built from a completed raw run. *)
Definition toRun (r : runPayload) : run :=
  {| Finished := UpdatedAt r;
     Elapsed := GoTime.Sub (UpdatedAt r) (CreatedAt r);
     Status := rp_Status r;
     Conclusion := rp_Conclusion r;
     URL := rp_URL r |}.

(** The test of the source: completed, and [last - finishedAgo > 0] in
    64-bit arithmetic. *)
Definition kept (now last : Z) (r : runPayload) : bool :=
  isCompleted (rp_Status r)
  && (0 <? sub64 last (GoTime.Since now (UpdatedAt r))).

(** The test of the specification: completed, and finished less than
    [window] ago. *)
Definition inWindow (now window : Z) (r : runPayload) : bool :=
  isCompleted (rp_Status r) && (GoTime.Since now (UpdatedAt r) <? window).

(** Friday 30 October 2026, 12:00 UTC, in nanoseconds from the Unix epoch. *)
Definition sampleNow : Z := 1793361600 * GoTime.Second.

(** A completed run whose [updated_at] lies [2^63] ns (about 292 years)
    after [sampleNow]. *)
Definition farFutureRun : runPayload :=
  {| rp_Id := 1; CreatedAt := sampleNow; UpdatedAt := sampleNow + 2 ^ 63;
     rp_Status := "completed"; rp_Conclusion := "success"; rp_URL := "runs/1" |}.

(** A run that finished one hour ago, one that finished 30 hours ago, and
    one that is still in progress. *)
Definition sampleRuns : list runPayload :=
  [ {| rp_Id := 1; CreatedAt := sampleNow - 2 * GoTime.Hour;
       UpdatedAt := sampleNow - 1 * GoTime.Hour;
       rp_Status := "completed"; rp_Conclusion := "success"; rp_URL := "runs/1" |};
    {| rp_Id := 2; CreatedAt := sampleNow - 31 * GoTime.Hour;
       UpdatedAt := sampleNow - 30 * GoTime.Hour;
       rp_Status := "completed"; rp_Conclusion := "failure"; rp_URL := "runs/2" |};
    {| rp_Id := 3; CreatedAt := sampleNow - 1; UpdatedAt := sampleNow;
       rp_Status := "in_progress"; rp_Conclusion := ""; rp_URL := "runs/3" |} ].

(** Calls that are not billing fetches. *)
Definition noBillingFetch (calls : list (list string)) : Prop :=
  Forall (fun args => isBillingFetch args = false) calls.

Definition unbilled (out : list workflow) : Prop :=
  Forall (fun w => BillableMs w = 0) out.

(** A sample account.  [gh] answers every call with a document named by
    the path of the call; the decoders read the documents of one repository
    with the workflows ["build"] (runs [sampleRuns], 60000 ms billed on Linux
    for run 1) and ["docs"] (no run). *)
Definition sampleGh (args : list string) : error + string :=
  match args with
  | [_; _; _; path; _; _] => inr path
  | _ => inl (GhFailed args)
  end.

Definition sampleWorkflows (stdout : string) : option (list workflowsPayload) :=
  if String.eqb stdout "repos/acme/app/actions/workflows" then
    Some [ {| wp_Id := 1; wp_State := "active"; wp_Name := "build";
              wp_URL := "workflows/1" |};
           {| wp_Id := 2; wp_State := "active"; wp_Name := "docs";
              wp_URL := "workflows/2" |} ]
  else None.

Definition sampleRunsOf (stdout : string) : option (list runPayload) :=
  if String.eqb stdout "workflows/1/runs" then Some sampleRuns
  else if String.eqb stdout "workflows/2/runs" then Some []
  else None.

Definition sampleBillable (stdout : string) : option billablePayload :=
  if String.eqb stdout "runs/1/timing" then
    Some {| MacOs := 0; Windows := 0; Ubuntu := 60000 |}
  else None.

Definition sampleFetch (private : bool) : list (list string) * (error + list workflow) :=
  getWorkflows sampleGh sampleWorkflows sampleRunsOf sampleBillable sampleNow
    {| RepoName := "acme/app"; Private := private; Workflows := [] |}
    (24 * GoTime.Hour) [].

(** The run of ["build"] that lies in the window of 24 hours. *)
Definition buildRun : run :=
  {| Finished := sampleNow - 1 * GoTime.Hour; Elapsed := 1 * GoTime.Hour;
     Status := "completed"; Conclusion := "success"; URL := "runs/1" |}.

(** The billed milliseconds of the runs of one workflow, fetched run by run:
    what the specification asks [BillableMs] to be. *)
Definition ownBillableMs (gh : list string -> error + string)
    (unmarshalBillable : string -> option billablePayload) (runs : list run)
  : option Z :=
  foldr (fun r acc =>
           match gh ["api"; "--cache"; defaultApiCacheTime; URL r +:+ "/timing";
                     "--jq"; ".billable"], acc with
           | inr stdout, Some total =>
               match unmarshalBillable stdout with
               | Some bp => Some (MacOs bp + Windows bp + Ubuntu bp + total)
               | None => None
               end
           | _, _ => None
           end)
        (Some 0) runs.

(** What [getWorkflows] gives instead: each workflow carries the total of
    the workflows before it ([prev]) plus its own billed milliseconds. *)
Fixpoint runningTotals (gh : list string -> error + string)
    (unmarshalBillable : string -> option billablePayload)
    (prev : Z) (out : list workflow) : Prop :=
  match out with
  | [] => True
  | w :: out' =>
      (exists own, ownBillableMs gh unmarshalBillable (Runs w) = Some own
                   /\ BillableMs w = wrap64 (prev + own))
      /\ runningTotals gh unmarshalBillable (BillableMs w) out'
  end.

(** ** Vocabulary of the further properties *)

(** A run that [getWorkflows] can return: completed, with an elapsed time
    in the range of a [Duration]. *)
Definition fetchedRun (r : run) : Prop :=
  Status r = "completed" /\ wfRun r.

(** The raw runs that did not finish after the reading of the clock. *)
Definition finishedByNow (now : Z) (rs : list runPayload) : Prop :=
  Forall (fun r => UpdatedAt r <= now) rs.

(** The workflows of a listing that are not disabled. *)
Definition enabled (p : list workflowsPayload) : list workflowsPayload :=
  List.filter (fun w => negb (String.prefix "disabled" (wp_State w))) p.

(** The three calls of [getWorkflows] and the calls of [populateRepos]. *)
Definition workflowsCall (r : repositoryData) : list string :=
  ["api"; "--cache"; defaultApiCacheTime;
   "repos/" +:+ RepoName r +:+ "/actions/workflows"; "--jq"; ".workflows"].

Definition runsCall (w : workflowsPayload) : list string :=
  ["api"; "--cache"; defaultApiCacheTime; wp_URL w +:+ "/runs";
   "--jq"; ".workflow_runs"].

Definition timingCall (r : run) : list string :=
  ["api"; "--cache"; defaultApiCacheTime; URL r +:+ "/timing";
   "--jq"; ".billable"].

Definition repoCall (owner name : string) : list string :=
  ["api"; "--cache"; defaultApiCacheTime; "repos/" +:+ owner +:+ "/" +:+ name].

Definition orgReposCall (selector : string) : list string :=
  ["api"; "--cache"; defaultApiCacheTime; "orgs/" +:+ selector +:+ "/repos"].

Definition userReposCall (selector : string) : list string :=
  ["api"; "--cache"; defaultApiCacheTime; "users/" +:+ selector +:+ "/repos"].

(** The cards and the repository names among printed lines, in order. *)
Definition cardsOf (lines : list line) : list string :=
  concat (map (fun l => match l with CardRowLine row => row | _ => [] end) lines).

Definition repoNamesOf (lines : list line) : list string :=
  concat (map (fun l => match l with RepoLine name => [name] | _ => [] end) lines).

Definition hasWorkflows (r : repositoryData) : bool :=
  negb (Nat.eqb (length (Workflows r)) 0).

(** The calls that [getWorkflows] makes for one workflow that is not
    disabled: the listing of its runs and, in a private repository, the
    timing of every run kept. *)
Definition callsFor (private : bool) (pw : workflowsPayload) (w : workflow)
  : list (list string) :=
  runsCall pw :: (if private then map timingCall (Runs w) else []).

(** The workflow [w] was built from the entry [pw] of the listing: it has
    its name, and its runs are the filtered runs of its run listing. *)
Definition fetchedFrom (gh : list string -> error + string)
    (unmarshalRuns : string -> option (list runPayload)) (now last : Z)
    (pw : workflowsPayload) (w : workflow) : Prop :=
  exists stdout rs,
    gh (runsCall pw) = inr stdout
    /\ unmarshalRuns stdout = Some rs
    /\ Name w = wp_Name pw
    /\ Runs w = filterRuns now last rs.

(** The repository [r] is what [gh] and the decoder give for [name]. *)
Definition repoOf (gh : list string -> error + string)
    (unmarshalRepo : string -> option repositoryData)
    (selector name : string) (r : repositoryData) : Prop :=
  exists stdout,
    gh (repoCall selector name) = inr stdout /\ unmarshalRepo stdout = Some r.

(** A sample account for [_main]: [gh] answers every call with a document
    named by the path of the call; the organisation ["acme"] has the private
    repository ["acme/app"] of [sampleWorkflows] and the public repository
    ["acme/site"], which has no workflow. *)
Definition accountGh (args : list string) : error + string :=
  match args with
  | [_; _; _; path] => inr path
  | [_; _; _; path; _; _] => inr path
  | _ => inl (GhFailed args)
  end.

Definition appRepo : repositoryData :=
  {| RepoName := "acme/app"; Private := true; Workflows := [] |}.

Definition siteRepo : repositoryData :=
  {| RepoName := "acme/site"; Private := false; Workflows := [] |}.

Definition accountRepo (stdout : string) : option repositoryData :=
  if String.eqb stdout "repos/acme/app" then Some appRepo
  else if String.eqb stdout "repos/acme/site" then Some siteRepo
  else None.

(** The listing of the organisation ["ghost"] is the JSON array of
    ["acme/app"] and a [null]. *)
Definition accountRepos (stdout : string)
  : option (list (option repositoryData)) :=
  if String.eqb stdout "orgs/acme/repos" then Some [Some appRepo; Some siteRepo]
  else if String.eqb stdout "orgs/ghost/repos" then Some [Some appRepo; None]
  else None.

Definition accountWorkflows (stdout : string) : option (list workflowsPayload) :=
  if String.eqb stdout "repos/acme/site/actions/workflows" then Some []
  else sampleWorkflows stdout.

Definition accountMain (terminalWidth : option Z) (repositories : list string)
  : list (list string) * (list line * outcome) :=
  _main accountGh accountRepo accountRepos accountWorkflows sampleRunsOf
    sampleBillable sampleNow Name terminalWidth
    {| Repositories := repositories; Last := 24 * GoTime.Hour;
       Selector := "acme" |} [].

Definition ghostMain (terminalWidth : option Z)
  : list (list string) * (list line * outcome) :=
  _main accountGh accountRepo accountRepos accountWorkflows sampleRunsOf
    sampleBillable sampleNow Name terminalWidth
    {| Repositories := []; Last := 24 * GoTime.Hour; Selector := "ghost" |} [].

(** * Properties *)

(** ** Arithmetic helpers *)

Lemma wrap64_id z : isInt64 z -> wrap64 z = z.
Proof.
  unfold isInt64, wrap64, minInt64, maxInt64. intros H.
  rewrite Z.mod_small; lia.
Qed.

Lemma wrap64_range z : isInt64 (wrap64 z).
Proof.
  unfold isInt64, wrap64, minInt64, maxInt64.
  pose proof (Z.mod_pos_bound (z + 2 ^ 63) (2 ^ 64)). lia.
Qed.

Lemma wrap64_add_r u v : wrap64 (u + wrap64 v) = wrap64 (u + v).
Proof.
  unfold wrap64. f_equal.
  replace (u + ((v + 2 ^ 63) mod 2 ^ 64 - 2 ^ 63) + 2 ^ 63)
    with (u + (v + 2 ^ 63) mod 2 ^ 64) by lia.
  rewrite Zplus_mod_idemp_r. f_equal. lia.
Qed.

Lemma wrap64_add_l u v : wrap64 (wrap64 u + v) = wrap64 (u + v).
Proof. rewrite (Z.add_comm (wrap64 u)), wrap64_add_r. f_equal. lia. Qed.

Lemma quot_abs_le a b : 0 < b -> Z.abs (Z.quot a b) <= Z.abs a.
Proof.
  intros Hb. rewrite <- Z.quot_abs by lia. rewrite (Z.abs_eq b) by lia.
  rewrite Z.quot_div_nonneg by lia.
  apply Z.div_le_upper_bound; [lia|]. pose proof (Z.abs_nonneg a). nia.
Qed.

(** ** The health line *)

Lemma RenderHealth_loop_spec rs : forall i results,
  RenderHealth_loop i rs results
  = results ++ map renderRun (take (6 - i)%nat rs).
Proof.
  induction rs as [|r rs IH]; intros i results; simpl.
  - rewrite take_nil. simpl. now rewrite app_nil_r.
  - unfold defaultMaxRuns. destruct (Z.ltb_spec 5 (Z.of_nat i)) as [Hi | Hi].
    + replace (6 - i)%nat with 0%nat by lia. simpl. now rewrite app_nil_r.
    + replace (6 - i)%nat with (S (5 - i)) by lia.
      rewrite firstn_cons, map_cons.
      replace (5 - i)%nat with (6 - S i)%nat by lia.
      assert (Hr : renderRun r
                   = if negb (isCompleted (Status r))
                     then Render neutralStyle "-"
                     else renderConclusion (Conclusion r)) by reflexivity.
      rewrite Hr.
      destruct (negb (isCompleted (Status r)));
        rewrite IH, <- app_assoc; reflexivity.
Qed.

Lemma RenderHealth_spec w :
  RenderHealth w = map renderRun (take 6 (Runs w)).
Proof. unfold RenderHealth. now rewrite RenderHealth_loop_spec. Qed.

Lemma renderRun_paint r : renderRun r = paint (symbolOf r).
Proof.
  unfold renderRun, symbolOf, renderConclusion, isCompleted.
  destruct (String.eqb (Status r) "completed"); simpl; [|reflexivity].
  destruct (String.eqb (Conclusion r) "success"); [reflexivity|].
  destruct (String.eqb (Conclusion r) "skipped"); [reflexivity|].
  destruct (String.eqb (Conclusion r) "cancelled"); [reflexivity|].
  destruct (String.eqb (Conclusion r) "neutral"); reflexivity.
Qed.

(** C5.  For every run sequence, [RenderHealth] produces one symbol per run
    of the first [defaultMaxRuns + 1 = 6] runs, in their order, so at most 6
    symbols: neutral-unknown for a run that is not completed, pass for the
    conclusion success, neutral for skipped, cancelled and neutral, fail for
    any other conclusion.  Completed runs concluding success, failure,
    skipped, success, success give pass, fail, neutral, pass, pass. *)
Theorem C5_health_summary :
  forall w : workflow,
    RenderHealth w = map paint (map symbolOf (take 6 (Runs w)))
    /\ length (RenderHealth w) = Nat.min 6 (length (Runs w))
    /\ (length (RenderHealth w) <= Z.to_nat defaultMaxRuns + 1)%nat
    /\ RenderHealth
         {| Name := Name w;
            Runs := map completedRun
                      ["success"; "failure"; "skipped"; "success"; "success"];
            BillableMs := BillableMs w |}
       = map paint [Pass; Fail; Neutral; Pass; Pass].
Proof.
  intros w.
  assert (Hspec : RenderHealth w = map paint (map symbolOf (take 6 (Runs w)))).
  { rewrite RenderHealth_spec, map_map. apply map_ext. intros r. apply renderRun_paint. }
  assert (Hlen : length (RenderHealth w) = Nat.min 6 (length (Runs w))).
  { rewrite Hspec, !length_map, length_take. reflexivity. }
  split; [exact Hspec|]. split; [exact Hlen|]. split; [|reflexivity].
  rewrite Hlen. change (Z.to_nat defaultMaxRuns) with 5%nat. lia.
Qed.

(** ** The average elapsed time *)

Lemma AverageElapsed_loop_range rs : forall (i : nat) (totalTime : Z),
  isInt64 totalTime -> isInt64 (AverageElapsed_loop i rs totalTime).
Proof.
  induction rs as [|r rs IH]; intros i t Ht; simpl; [exact Ht|].
  destruct (defaultMaxRuns <? Z.of_nat i); [exact Ht|].
  apply IH, wrap64_range.
Qed.

(** The loop adds, in 64-bit arithmetic, the whole seconds of the runs of
    index at most [defaultMaxRuns]. *)
Lemma AverageElapsed_loop_wrap rs : forall (i : nat) (totalTime : Z),
  wrap64 (AverageElapsed_loop i rs totalTime)
  = wrap64 (totalTime + sumZ (map wholeSeconds (take (6 - i)%nat rs))).
Proof.
  induction rs as [|r rs IH]; intros i t; simpl.
  - rewrite take_nil. simpl. now rewrite Z.add_0_r.
  - unfold defaultMaxRuns. destruct (Z.ltb_spec 5 (Z.of_nat i)) as [Hlt | Hle].
    + replace (6 - i)%nat with 0%nat by lia. simpl. now rewrite Z.add_0_r.
    + rewrite IH. replace (6 - i)%nat with (S (6 - S i)) by lia.
      rewrite firstn_cons, map_cons. unfold add64.
      change (sumZ (wholeSeconds r :: map wholeSeconds (take (6 - S i) rs)))
        with (wholeSeconds r + sumZ (map wholeSeconds (take (6 - S i) rs))).
      rewrite wrap64_add_l. f_equal. unfold wholeSeconds at 2. lia.
Qed.

(** What [AverageElapsed] computes, for every workflow: the sum is the
    64-bit sum. *)
Lemma AverageElapsed_sum64 w :
  AverageElapsed w
  = GoTime.ParseSeconds
      (Z.quot (wrap64 (sumZ (map wholeSeconds (examined (Runs w)))))
              defaultMaxRuns).
Proof.
  unfold AverageElapsed, examined.
  change (Z.to_nat defaultMaxRuns + 1)%nat with 6%nat.
  pose proof (AverageElapsed_loop_range (Runs w) 0 0
                ltac:(vm_compute; split; discriminate)) as Hrange.
  pose proof (AverageElapsed_loop_wrap (Runs w) 0 0) as Hwrap.
  rewrite (wrap64_id _ Hrange) in Hwrap.
  change (6 - 0)%nat with 6%nat in Hwrap. rewrite Z.add_0_l in Hwrap.
  rewrite <- Hwrap. f_equal. apply wrap64_id.
  pose proof (Z.quot_rem' (AverageElapsed_loop 0 (Runs w) 0) 5) as Hqr.
  pose proof (Z.rem_bound_abs (AverageElapsed_loop 0 (Runs w) 0) 5
                ltac:(lia)) as Hr.
  unfold isInt64, minInt64, maxInt64, defaultMaxRuns in *. lia.
Qed.

(** The same when the sum of the whole seconds is in the 64-bit range. *)
Lemma AverageElapsed_spec w :
  isInt64 (sumZ (map wholeSeconds (examined (Runs w)))) ->
  AverageElapsed w
  = GoTime.ParseSeconds
      (Z.quot (sumZ (map wholeSeconds (examined (Runs w)))) defaultMaxRuns).
Proof. intros H. rewrite AverageElapsed_sum64. now rewrite wrap64_id. Qed.

(** A sum whose fifth fits in a [Duration] is in the 64-bit range. *)
Lemma fits_isInt64 (total : Z) :
  Z.abs (Z.quot total defaultMaxRuns) * GoTime.Second <= GoTime.maxDuration ->
  isInt64 total.
Proof.
  unfold defaultMaxRuns, GoTime.Second, GoTime.maxDuration, isInt64, minInt64,
    maxInt64.
  intros H. pose proof (Z.quot_rem' total 5) as Hqr.
  pose proof (Z.rem_bound_abs total 5 ltac:(lia)) as Hr. lia.
Qed.

Lemma ParseSeconds_fits n :
  Z.abs n * GoTime.Second <= GoTime.maxDuration ->
  GoTime.ParseSeconds n = n * GoTime.Second.
Proof.
  unfold GoTime.ParseSeconds, GoTime.maxParseSeconds, GoTime.maxDuration,
    maxInt64, GoTime.Second.
  change (2 ^ 63 / 1000000000) with 9223372036. intros H.
  destruct (Z.ltb_spec 9223372036 (Z.abs n)); [lia | reflexivity].
Qed.


(** C2, as stated, fails.  The average of six runs of the longest
    duration is 11068046443 s, above what [time.ParseDuration] accepts; the
    parse fails, its error is dropped and [AverageElapsed] returns 0.  And
    the whole seconds of a run are those of [int(r.Elapsed.Seconds())]: the
    run of 16777219.999999999 s counts for 16777220 s, so the average of
    [sharpRun] is not the fifth of its elapsed time truncated to seconds. *)
Lemma C2_average_elapsed_counterexample :
  Forall wfRun (Runs sixLongRuns)
  /\ AverageElapsed sixLongRuns = 0
  /\ AverageElapsed sixLongRuns
     <> Z.quot (sumZ (map wholeSeconds (examined (Runs sixLongRuns))))
               defaultMaxRuns * GoTime.Second
  /\ Forall wfRun (Runs sharpRun)
  /\ AverageElapsed sharpRun
     <> Z.quot (sumZ (map truncatedSeconds (examined (Runs sharpRun))))
               defaultMaxRuns * GoTime.Second.
Proof.
  split; [unfold sixLongRuns; simpl; solve_wfRuns|].
  split; [vm_compute; reflexivity|]. split; [vm_compute; discriminate|].
  split; [unfold sharpRun; simpl; solve_wfRuns | vm_compute; discriminate].
Qed.

(** C2 (amended).  For every workflow whose runs carry 64-bit durations,
    let [q] be the sum of the whole seconds [int(r.Elapsed.Seconds())] of
    the examined runs (the first [defaultMaxRuns + 1 = 6]) divided,
    truncating, by the fixed cap [defaultMaxRuns = 5], whatever the number
    of runs.  If [q] seconds fit in a [Duration] then [AverageElapsed] is
    [q] seconds.  With fewer than 5 runs the sum is over all of them: the
    missing runs add nothing. *)
Theorem C2_average_elapsed_amended :
  forall w : workflow,
    Forall wfRun (Runs w) ->
    let q := Z.quot (sumZ (map wholeSeconds (examined (Runs w)))) defaultMaxRuns in
    Z.abs q * GoTime.Second <= GoTime.maxDuration ->
    AverageElapsed w = q * GoTime.Second
    /\ ((length (Runs w) < Z.to_nat defaultMaxRuns)%nat ->
        q = Z.quot (sumZ (map wholeSeconds (Runs w))) defaultMaxRuns).
Proof.
  intros w Hwf q Hfits. split.
  - rewrite AverageElapsed_spec by (apply fits_isInt64; exact Hfits).
    now apply ParseSeconds_fits.
  - intros Hlen. unfold q, examined. rewrite take_ge; [reflexivity|].
    change (Z.to_nat defaultMaxRuns) with 5%nat in *. lia.
Qed.

Lemma C2_average_elapsed_amended_witness :
  AverageElapsed twoRuns = 24 * GoTime.Second
  /\ AverageElapsed sharpRun = 3355444 * GoTime.Second.
Proof.
  split.
  - refine (proj1 (C2_average_elapsed_amended twoRuns _ _)).
    + unfold twoRuns; simpl; solve_wfRuns.
    + vm_compute; discriminate.
  - refine (proj1 (C2_average_elapsed_amended sharpRun _ _)).
    + unfold sharpRun; simpl; solve_wfRuns.
    + vm_compute; discriminate.
Defined.




(** ** Truncation of workflow names *)

Lemma substring_prefix s : forall n : nat,
  (n <= String.length s)%nat ->
  exists rest, s = substring 0 n s +:+ rest
               /\ String.length (substring 0 n s) = n.
Proof.
  induction s as [|c s IH]; intros n Hn; simpl in Hn.
  - assert (n = 0%nat) as -> by lia. exists EmptyString. split; reflexivity.
  - destruct n as [|n].
    + exists (String c s). split; reflexivity.
    + destruct (IH n ltac:(lia)) as (rest & Hs & Hlen).
      exists rest. split.
      * change (String c s = String c (substring 0 n s +:+ rest)).
        f_equal. exact Hs.
      * simpl. f_equal. exact Hlen.
Qed.

(** C8: the code diverges from the claim.  [truncateWorkflowName] measures
    and cuts the name in bytes, [len(name)] and [name[:length]], where the
    claim counts characters.  The name of six check marks has 6 characters,
    within the limit 17 of the only call, and must be returned unchanged;
    it has 18 bytes, so the code cuts it to 17 bytes, five check marks and
    the first two bytes of the sixth, and appends the marker.  Three check
    marks at the limit 4 give one check mark and one byte of the second;
    twenty check marks at the limit 17 give five characters and two bytes,
    not 17 characters. *)
Theorem C8_truncate_cuts_bytes :
  runeCount (checkMarks 6) = 6%nat
  /\ (Z.of_nat (runeCount (checkMarks 6)) <= defaultWorkflowNameLength)
  /\ String.length (checkMarks 6) = 18%nat
  /\ truncateWorkflowName (checkMarks 6) defaultWorkflowNameLength
     = Some (checkMarks 5 +:+ String "226" (String "156" "") +:+ "...")
  /\ truncateWorkflowName (checkMarks 6) defaultWorkflowNameLength
     <> Some (checkMarks 6)
  /\ runeCount (checkMarks 3) = 3%nat
  /\ truncateWorkflowName (checkMarks 3) 4
     = Some (checkMarks 1 +:+ String "226" "" +:+ "...")
  /\ runeCount (checkMarks 20) = 20%nat
  /\ truncateWorkflowName (checkMarks 20) defaultWorkflowNameLength
     = Some (checkMarks 5 +:+ String "226" (String "156" "") +:+ "...")
  /\ truncateWorkflowName (checkMarks 20) defaultWorkflowNameLength
     <> Some (checkMarks 17 +:+ "...").
Proof.
  repeat (split; [vm_compute; first [reflexivity | discriminate]|]).
  vm_compute. discriminate.
Qed.

(** ** The card grid *)

Lemma concat_replicate_nil {A} (m : nat) : concat (replicate m (@nil A)) = [].
Proof. induction m as [|m IH]; [reflexivity | exact IH]. Qed.

(** The quotient of [totalRowsOf] is the ceiling of [n / c]. *)
Lemma ceil_bounds (n c : Z) :
  0 < c -> c * (- (- n / c) - 1) < n <= c * - (- n / c).
Proof.
  intros Hc. pose proof (Z.div_mod (- n) c ltac:(lia)) as Hdm.
  pose proof (Z.mod_pos_bound (- n) c Hc). nia.
Qed.

Lemma ceil_formula (n c : Z) : 0 < c -> - (- n / c) = (n + c - 1) / c.
Proof.
  intros Hc. pose proof (ceil_bounds n c Hc) as Hb.
  apply Z.div_unique with (r := n + c - 1 - c * - (- n / c)); lia.
Qed.

Section GridInvariant.

Variable renderCard : workflow -> string.
(** [cardsPerRow], the number of workflows and the number of rows. *)
Variables (c : Z) (n T : nat).
Hypothesis c_pos : 1 <= c.
Hypothesis rows_enough : Z.of_nat n <= c * Z.of_nat T.

Lemma gridInv_init :
  (0 < T)%nat -> gridInv c T 0 (initGrid (replicate T [])).
Proof.
  clear rows_enough. intros HT. exists [], [], (T - 1)%nat.
  split; [replace T with (S (T - 1)) at 1 by lia; reflexivity|].
  split; [reflexivity|]. split; [constructor|]. simpl.
  split; [lia|]. split; [lia|]. split; lia.
Qed.

(** One card more: the step reads and writes inside the grid, and the row
    index moves on only from a full row. *)
Lemma walkStep_inv k st w :
  gridInv c T k st -> (k < n)%nat ->
  exists st',
    walkStep renderCard c st w = Some st'
    /\ gridInv c T (S k) st'
    /\ concat (cardRows st') = concat (cardRows st) ++ [renderCard w]
    /\ (rowIndex st < T)%nat /\ (rowIndex st' < T)%nat
    /\ (rowIndex st' = rowIndex st
        \/ rowIndex st' = S (rowIndex st)
           /\ exists row, cardRows st !! rowIndex st = Some row
                          /\ Z.of_nat (length row) = c).
Proof.
  intros (full & cur & m & Hrows & Hfull & Hall & Hcur & Hpos & Hk & Hm) Hlt.
  assert (Hlook : cardRows st !! rowIndex st = Some cur).
  { rewrite Hrows. apply list_lookup_middle. now rewrite Hfull. }
  unfold walkStep. rewrite Hlook.
  destruct (Z.eqb_spec (Z.of_nat (length cur)) c) as [Heq | Hne].
  - (* the current row is full: advance *)
    assert (Hm1 : (1 <= m)%nat) by nia.
    destruct m as [|m']; [lia|].
    assert (Hrows' : cardRows st = (full ++ [cur]) ++ [] :: replicate m' []).
    { rewrite Hrows, <- app_assoc. reflexivity. }
    assert (Hlook' : cardRows st !! S (rowIndex st) = Some []).
    { rewrite Hrows'. apply list_lookup_middle. rewrite length_app. simpl. lia. }
    rewrite Hlook'. eexists. split; [reflexivity|]. simpl.
    assert (Hins : <[S (rowIndex st) := [renderCard w]]> (cardRows st)
                   = (full ++ [cur]) ++ [renderCard w] :: replicate m' []).
    { rewrite Hrows'.
      rewrite insert_app_r_alt by (rewrite length_app; simpl; lia).
      rewrite length_app. simpl.
      replace (S (rowIndex st) - (length full + 1))%nat with 0%nat by lia.
      reflexivity. }
    rewrite Hins. split; [|split; [|repeat split; try lia]].
    + exists (full ++ [cur]), [renderCard w], m'. simpl.
      split; [reflexivity|]. split; [rewrite length_app; simpl; lia|].
      split; [apply Forall_app; split; [exact Hall | repeat constructor; exact Heq]|].
      repeat split; lia.
    + rewrite Hrows'. rewrite !concat_app. simpl.
      rewrite !concat_replicate_nil, !app_nil_r. reflexivity.
    + right. split; [reflexivity|]. exists cur. split; [reflexivity | exact Heq].
  - (* room in the current row *)
    rewrite Hlook. eexists. split; [reflexivity|]. simpl.
    assert (Hins : <[rowIndex st := cur ++ [renderCard w]]> (cardRows st)
                   = full ++ (cur ++ [renderCard w]) :: replicate m []).
    { rewrite Hrows. rewrite insert_app_r_alt by lia.
      replace (rowIndex st - length full)%nat with 0%nat by lia. reflexivity. }
    rewrite Hins. split; [|split; [|repeat split; try lia]].
    + exists full, (cur ++ [renderCard w]), m. rewrite length_app. simpl.
      repeat split; try assumption; lia.
    + rewrite Hrows. rewrite !concat_app. simpl.
      rewrite !concat_replicate_nil, !app_nil_r, app_assoc. reflexivity.
Qed.

(** The walk over [rest], from a state reached after [k] cards. *)
Lemma walk_inv rest : forall k st,
  gridInv c T k st -> (k + length rest <= n)%nat ->
  exists st',
    walk renderCard c st rest = Some st'
    /\ gridInv c T (k + length rest) st'
    /\ concat (cardRows st') = concat (cardRows st) ++ map renderCard rest.
Proof.
  induction rest as [|w rest IH]; intros k st Hinv Hlen; simpl in *.
  - exists st. rewrite Nat.add_0_r, app_nil_r. auto.
  - destruct (walkStep_inv k st w Hinv ltac:(lia))
      as (st1 & Hstep & Hinv1 & Hcat1 & _).
    rewrite Hstep.
    destruct (IH (S k) st1 Hinv1 ltac:(lia)) as (st' & Hwalk & Hinv' & Hcat').
    exists st'. split; [exact Hwalk|].
    split; [now replace (k + S (length rest))%nat with (S k + length rest)%nat by lia|].
    rewrite Hcat', Hcat1, <- app_assoc. reflexivity.
Qed.

End GridInvariant.

Lemma totalRowsOf_ceil n c :
  1 <= c -> totalRowsOf n c = Some (Z.of_nat (ceilRows n c)).
Proof.
  intros Hc. unfold totalRowsOf, ceilRows.
  destruct (Z.eqb_spec c 0); [lia|].
  rewrite ceil_formula by lia. rewrite Z2Nat.id; [reflexivity|].
  apply Z.div_pos; lia.
Qed.

Lemma make_ceil n c : make (Z.of_nat (ceilRows n c)) = Some (replicate (ceilRows n c) []).
Proof.
  unfold make. destruct (Z.ltb_spec (Z.of_nat (ceilRows n c)) 0); [lia|].
  now rewrite Nat2Z.id.
Qed.

Lemma ceilRows_bounds n c :
  1 <= c ->
  c * (Z.of_nat (ceilRows n c) - 1) < Z.of_nat n <= c * Z.of_nat (ceilRows n c).
Proof.
  intros Hc. unfold ceilRows. rewrite Z2Nat.id by (apply Z.div_pos; lia).
  rewrite <- ceil_formula by lia. apply ceil_bounds. lia.
Qed.

(** The grid of [cardGrid]: it is built without a panic, and its rows are
    the cards in order, cut every [c] cards. *)
Lemma cardGrid_shape (renderCard : workflow -> string) (c : Z) (ws : list workflow) :
  1 <= c ->
  exists rows,
    cardGrid renderCard c ws = Some rows
    /\ length rows = ceilRows (length ws) c
    /\ concat rows = map renderCard ws
    /\ (forall i row, rows !! i = Some row -> (S i < length rows)%nat ->
                      Z.of_nat (length row) = c)
    /\ (forall row, last rows = Some row -> 1 <= Z.of_nat (length row) <= c).
Proof.
  intros Hc. unfold cardGrid.
  rewrite totalRowsOf_ceil by exact Hc. rewrite make_ceil.
  pose proof (ceilRows_bounds (length ws) c Hc) as [Hlo Hhi].
  set (T := ceilRows (length ws) c) in *.
  destruct ws as [|w0 ws0] eqn:Hws.
  - (* no card: no row *)
    simpl in *. assert (T = 0%nat) as -> by nia. simpl.
    exists []. split; [reflexivity|]. split; [reflexivity|]. split; [reflexivity|].
    split; [intros i row Hl; rewrite lookup_nil in Hl | intros row Hl]; discriminate.
  - rewrite <- Hws in *. assert (Hn : (0 < length ws)%nat) by (rewrite Hws; simpl; lia).
    assert (HT : (0 < T)%nat) by nia.
    destruct (walk_inv renderCard c (length ws) T Hc Hhi ws 0%nat
                (initGrid (replicate T [])) (gridInv_init c T Hc HT) ltac:(lia))
      as (st & Hwalk & Hinv & Hcat).
    rewrite Hwalk. exists (cardRows st).
    destruct Hinv as (full & cur & m & Hrows & Hfull & Hall & Hcur & Hpos & Hk & Hm).
    simpl in Hk, Hpos. specialize (Hpos Hn).
    assert (m = 0%nat) as -> by nia. simpl in Hrows.
    split; [reflexivity|]. split; [rewrite Hrows, length_app; simpl; lia|].
    split; [rewrite Hcat; simpl; now rewrite concat_replicate_nil|].
    rewrite Hrows. split.
    + intros i row Hl Hi. rewrite length_app in Hi. simpl in Hi.
      rewrite lookup_app_l in Hl by lia.
      eapply (proj1 (Forall_lookup _ _) Hall); exact Hl.
    + intros row Hl. rewrite last_snoc in Hl. injection Hl as <-. lia.
Qed.

(** C4.  For every list of workflows and every [cardsPerRow >= 1] the grid
    is built (no panic) and has [ceil(cardCount / cardsPerRow)] rows, the
    least [R] with [cardCount <= cardsPerRow * R]; the sizes of the rows sum
    to [cardCount]; every row but the last holds exactly [cardsPerRow] cards;
    the rows one after the other are the cards in the order of the
    workflows.  Seven cards, three to a row, give rows of 3, 3 and 1. *)
Theorem C4_card_grid_layout :
  forall (renderCard : workflow -> string) (cardsPerRow : Z) (ws : list workflow),
    1 <= cardsPerRow ->
    exists rows : list (list string),
      cardGrid renderCard cardsPerRow ws = Some rows
      /\ Z.of_nat (length rows)
         = (Z.of_nat (length ws) + cardsPerRow - 1) / cardsPerRow
      /\ cardsPerRow * (Z.of_nat (length rows) - 1)
         < Z.of_nat (length ws) <= cardsPerRow * Z.of_nat (length rows)
      /\ list_sum (map length rows) = length ws
      /\ (forall (i : nat) (row : list string),
             rows !! i = Some row -> (S i < length rows)%nat ->
             Z.of_nat (length row) = cardsPerRow)
      /\ concat rows = map renderCard ws
      /\ (length ws = 7%nat -> cardsPerRow = 3 ->
          map length rows = [3; 3; 1]%nat).
Proof.
  intros renderCard c ws Hc.
  destruct (cardGrid_shape renderCard c ws Hc)
    as (rows & Hgrid & Hlen & Hcat & Hfull & Hlast).
  exists rows.
  assert (Hsum : list_sum (map length rows) = length ws).
  { rewrite <- length_concat, Hcat. apply length_map. }
  split; [exact Hgrid|].
  split; [rewrite Hlen; unfold ceilRows; apply Z2Nat.id, Z.div_pos; lia|].
  split; [rewrite Hlen; apply ceilRows_bounds; exact Hc|].
  split; [exact Hsum|]. split; [exact Hfull|]. split; [exact Hcat|].
  intros H7 ->. rewrite H7 in Hlen, Hsum. change (ceilRows 7 3) with 3%nat in Hlen.
  destruct rows as [|r0 [|r1 [|r2 [|r3 rows]]]]; try discriminate Hlen.
  pose proof (Hfull 0%nat r0 eq_refl ltac:(simpl; lia)) as H0.
  pose proof (Hfull 1%nat r1 eq_refl ltac:(simpl; lia)) as H1.
  simpl in Hsum |- *.
  repeat f_equal; lia.
Qed.

Lemma C4_card_grid_layout_witness :
  exists rows : list (list string),
    cardGrid Name 3 (map (fun name => {| Name := name; Runs := []; BillableMs := 0 |})
                         ["a"; "b"; "c"; "d"; "e"; "f"; "g"]) = Some rows
    /\ map length rows = [3; 3; 1]%nat.
Proof.
  destruct (C4_card_grid_layout Name 3
              (map (fun name => {| Name := name; Runs := []; BillableMs := 0 |})
                   ["a"; "b"; "c"; "d"; "e"; "f"; "g"]) ltac:(lia))
    as (rows & Hgrid & _ & _ & _ & _ & _ & Hex).
  exists rows. split; [exact Hgrid | apply Hex; reflexivity].
Defined.

(** C9.  For every [cardsPerRow >= 1] and every list of workflows, the walk
    over the rows never leaves the slice made for it: [totalRows] is the
    ceiling of [n / cardsPerRow], the slice has [totalRows] rows, the walk
    ends without a panic, and at every card the row index is below
    [totalRows] both where the length of the current row is read and where
    the card is appended.  The index moves, by one, only when the row it
    leaves holds exactly [cardsPerRow] cards. *)
Theorem C9_row_index_in_bounds :
  forall (renderCard : workflow -> string) (cardsPerRow : Z) (ws : list workflow),
    1 <= cardsPerRow ->
    exists (totalRows : Z) (rows0 : list (list string)),
      totalRowsOf (length ws) cardsPerRow = Some totalRows
      /\ make totalRows = Some rows0
      /\ cardsPerRow * (totalRows - 1) < Z.of_nat (length ws) <= cardsPerRow * totalRows
      /\ (exists st, walk renderCard cardsPerRow (initGrid rows0) ws = Some st)
      /\ forall (pre : list workflow) (w : workflow) (post : list workflow),
           ws = pre ++ w :: post ->
           exists st st' : gridState,
             walk renderCard cardsPerRow (initGrid rows0) pre = Some st
             /\ walkStep renderCard cardsPerRow st w = Some st'
             /\ Z.of_nat (length (cardRows st)) = totalRows
             /\ 0 <= Z.of_nat (rowIndex st) <= totalRows - 1
             /\ 0 <= Z.of_nat (rowIndex st') <= totalRows - 1
             /\ (rowIndex st' = rowIndex st
                 \/ rowIndex st' = S (rowIndex st)
                    /\ exists row, cardRows st !! rowIndex st = Some row
                                   /\ Z.of_nat (length row) = cardsPerRow).
Proof.
  intros renderCard c ws Hc.
  pose proof (ceilRows_bounds (length ws) c Hc) as Hb.
  set (T := ceilRows (length ws) c) in *.
  exists (Z.of_nat T), (replicate T []).
  split; [apply totalRowsOf_ceil; exact Hc|].
  split; [apply make_ceil|]. split; [exact Hb|].
  destruct (Nat.eq_dec (length ws) 0%nat) as [Hz | Hnz].
  - apply length_zero_iff_nil in Hz. subst ws. split; [eexists; reflexivity|].
    intros pre w post Hsplit. destruct pre; discriminate Hsplit.
  - assert (HT : (0 < T)%nat) by nia.
    pose proof (gridInv_init c T Hc HT) as Hinit.
    split.
    + destruct (walk_inv renderCard c (length ws) T Hc (proj2 Hb) ws 0%nat _ Hinit
                  ltac:(lia)) as (st & Hwalk & _).
      exists st. exact Hwalk.
    + intros pre w post Hsplit.
      assert (Hlen : length ws = (length pre + S (length post))%nat).
      { rewrite Hsplit, length_app. reflexivity. }
      destruct (walk_inv renderCard c (length ws) T Hc (proj2 Hb) pre 0%nat _ Hinit
                  ltac:(simpl; lia)) as (st & Hwalk & Hinv & _).
      destruct (walkStep_inv renderCard c (length ws) T Hc (proj2 Hb) _ st w Hinv
                  ltac:(simpl; lia))
        as (st' & Hstep & _ & _ & Hi & Hi' & Hadv).
      exists st, st'. split; [exact Hwalk|]. split; [exact Hstep|].
      split.
      { destruct Hinv as (full & cur & m & Hrows & Hfull & _ & _ & _ & _ & Hm).
        rewrite Hrows, length_app. simpl. rewrite length_replicate. lia. }
      split; [lia|]. split; [lia|]. exact Hadv.
Qed.

Lemma C9_row_index_in_bounds_witness :
  exists st,
    walk Name 3 (initGrid (replicate 3 []))
      (map (fun name => {| Name := name; Runs := []; BillableMs := 0 |})
           ["a"; "b"; "c"; "d"; "e"; "f"; "g"]) = Some st.
Proof.
  destruct (C9_row_index_in_bounds Name 3
              (map (fun name => {| Name := name; Runs := []; BillableMs := 0 |})
                   ["a"; "b"; "c"; "d"; "e"; "f"; "g"]) ltac:(lia))
    as (totalRows & rows0 & Htotal & Hmake & _ & Hwalk & _).
  injection Htotal as <-. injection Hmake as <-. exact Hwalk.
Defined.

(** ** The run filter *)

Lemma filterRuns_loop_spec now last rs : forall runs,
  filterRuns_loop now last rs runs
  = runs ++ map toRun (List.filter (kept now last) rs).
Proof.
  induction rs as [|r rs IH]; intros runs; simpl.
  - now rewrite app_nil_r.
  - unfold kept at 1. destruct (isCompleted (rp_Status r)); simpl; [|apply IH].
    destruct (0 <? sub64 last (GoTime.Since now (UpdatedAt r))); simpl;
      [|apply IH].
    rewrite IH, <- app_assoc. reflexivity.
Qed.

Lemma filterRuns_spec now last rs :
  filterRuns now last rs = map toRun (List.filter (kept now last) rs).
Proof. unfold filterRuns. now rewrite filterRuns_loop_spec. Qed.

(** Without overflow the test of the source is the test of the
    specification. *)
Lemma kept_inWindow now last r :
  isInt64 (last - GoTime.Since now (UpdatedAt r)) ->
  kept now last r = inWindow now last r.
Proof.
  intros H. unfold kept, inWindow, sub64. rewrite wrap64_id by exact H.
  f_equal. destruct (Z.ltb_spec 0 (last - GoTime.Since now (UpdatedAt r)));
    destruct (Z.ltb_spec (GoTime.Since now (UpdatedAt r)) last); lia.
Qed.

Lemma Since_range now t : isInt64 (GoTime.Since now t).
Proof.
  unfold GoTime.Since, GoTime.Sub, GoTime.minDuration, GoTime.maxDuration,
    isInt64, minInt64, maxInt64.
  destruct (Z.ltb_spec (now - t) (- 2 ^ 63)); [lia|].
  destruct (Z.ltb_spec (2 ^ 63 - 1) (now - t)); lia.
Qed.

(** C3, as stated, fails: [farFutureRun] is completed and finished less than
    24 hours ago (it has not finished yet: [now - finishedAt] is the most
    negative duration), but [last - finishedAgo] overflows to a negative
    number and the run is dropped. *)
Lemma C3_run_filter_counterexample :
  inWindow sampleNow (24 * GoTime.Hour) farFutureRun = true
  /\ filterRuns sampleNow (24 * GoTime.Hour) [farFutureRun] = []
  /\ filterRuns sampleNow (24 * GoTime.Hour) [farFutureRun]
     <> map toRun (List.filter (inWindow sampleNow (24 * GoTime.Hour)) [farFutureRun]).
Proof.
  split; [reflexivity|]. split; [reflexivity|]. vm_compute. discriminate.
Qed.

(** C3 (amended).  For every sequence of raw runs and every window such
    that [window - (now - finishedAt)] stays in the 64-bit range for the
    completed runs, the filter returns, in the order of the input, exactly
    the runs that are completed and finished less than [window] ago; the
    output is no longer than the input; a completed run that finished 30
    hours ago is dropped under a window of 24 hours. *)
Theorem C3_run_filter_amended :
  forall (now window : Z) (rs : list runPayload),
    Forall (fun r => isCompleted (rp_Status r) = true ->
                     isInt64 (window - GoTime.Since now (UpdatedAt r))) rs ->
    filterRuns now window rs = map toRun (List.filter (inWindow now window) rs)
    /\ (length (filterRuns now window rs) <= length rs)%nat
    /\ Forall (fun rr => Status rr = "completed"
                         /\ GoTime.Since now (Finished rr) < window)
              (filterRuns now window rs)
    /\ forall r, rp_Status r = "completed" ->
                 GoTime.Since now (UpdatedAt r) = 30 * GoTime.Hour ->
                 filterRuns now (24 * GoTime.Hour) [r] = [].
Proof.
  intros now window rs Hok.
  assert (Heq : List.filter (kept now window) rs
                = List.filter (inWindow now window) rs).
  { induction Hok as [|r rs Hr _ IH]; [reflexivity|]. simpl.
    assert (Hk : kept now window r = inWindow now window r).
    { destruct (isCompleted (rp_Status r)) eqn:Hc.
      - apply kept_inWindow, Hr. reflexivity.
      - unfold kept, inWindow. now rewrite Hc. }
    rewrite Hk, IH. reflexivity. }
  assert (Hspec : filterRuns now window rs
                  = map toRun (List.filter (inWindow now window) rs)).
  { rewrite filterRuns_spec, Heq. reflexivity. }
  split; [exact Hspec|]. split; [|split].
  - rewrite Hspec, length_map. apply List.filter_length_le.
  - rewrite Hspec. apply Forall_forall. intros rr Hin.
    apply list_elem_of_In, in_map_iff in Hin as (r & <- & Hin).
    apply filter_In in Hin as [_ Hin]. unfold inWindow in Hin.
    apply andb_prop in Hin as [Hc Hw]. simpl. split.
    + now apply String.eqb_eq in Hc.
    + now apply Z.ltb_lt in Hw.
  - intros r Hc H30. rewrite filterRuns_spec. simpl. unfold kept, sub64.
    rewrite H30, Hc. reflexivity.
Qed.

Lemma C3_run_filter_amended_witness :
  filterRuns sampleNow (24 * GoTime.Hour) sampleRuns
  = map toRun (List.filter (inWindow sampleNow (24 * GoTime.Hour)) sampleRuns).
Proof.
  refine (proj1 (C3_run_filter_amended sampleNow (24 * GoTime.Hour) sampleRuns _)).
  repeat (first [apply Forall_nil_2
                | apply Forall_cons_2; [intros _; vm_compute; split; discriminate|]]).
Defined.

(** ** Billable time *)

Section FetchProps.

Variable gh : list string -> error + string.
Variable unmarshalWorkflows : string -> option (list workflowsPayload).
Variable unmarshalRuns : string -> option (list runPayload).
Variable unmarshalBillable : string -> option billablePayload.
Variable now : Z.

(** The loop over the workflows of a public repository: [totalMs] stays
    0 and the only calls are the listings of runs. *)
Lemma workflows_loop_public last p : forall out log,
  unbilled out ->
  let res := workflows_loop gh unmarshalRuns unmarshalBillable now
               false last p 0 out log in
  (exists calls, fst res = log ++ calls /\ noBillingFetch calls)
  /\ (forall out', snd res = inr out' -> unbilled out').
Proof.
  induction p as [|w p IH]; intros out log Hout; simpl.
  - split; [exists []; split; [now rewrite app_nil_r | constructor]|].
    intros out' [= <-]. exact Hout.
  - destruct (String.prefix "disabled" (wp_State w)); [apply IH; exact Hout|].
    unfold bind, orErrorf, callGh, decode, ret, throw.
    destruct (gh _) as [e | stdout] eqn:Hgh; simpl.
    + split; [eexists; split; [reflexivity | repeat constructor]|].
      intros out' [=].
    + destruct (unmarshalRuns stdout) as [rs|]; simpl.
      * match goal with
        | |- context [workflows_loop _ _ _ _ _ _ _ _ ?o ?l] =>
            destruct (IH o l) as [(calls & Hlog & Hcalls) Hres]
        end.
        { apply Forall_app. split; [exact Hout | repeat constructor]. }
        split; [|exact Hres].
        eexists. split; [rewrite Hlog, <- app_assoc; reflexivity|].
        constructor; [reflexivity | exact Hcalls].
      * split; [eexists; split; [reflexivity | repeat constructor]|].
        intros out' [=].
Qed.

End FetchProps.

(** C6.  For a public repository ([Private = false]), whatever [gh]
    answers: [getWorkflows] makes no billing fetch (none of its calls
    selects [.billable]), and when it returns workflows every one of them
    has [BillableMs = 0]. *)
Theorem C6_public_repository_unbilled :
  forall (gh : list string -> error + string)
         (unmarshalWorkflows : string -> option (list workflowsPayload))
         (unmarshalRuns : string -> option (list runPayload))
         (unmarshalBillable : string -> option billablePayload)
         (now : Z) (repoData : repositoryData) (last : Z)
         (log : list (list string)),
    Private repoData = false ->
    let res := getWorkflows gh unmarshalWorkflows unmarshalRuns
                 unmarshalBillable now repoData last log in
    (exists calls, fst res = log ++ calls
                   /\ Forall (fun args => isBillingFetch args = false) calls)
    /\ (forall out, snd res = inr out -> Forall (fun w => BillableMs w = 0) out).
Proof.
  intros gh uW uR uB now repoData last log Hpub.
  unfold getWorkflows. rewrite Hpub.
  unfold bind, callGh, decode, ret, throw.
  destruct (gh _) as [e | stdout]; simpl.
  - split; [eexists; split; [reflexivity | repeat constructor]|].
    intros out [=].
  - destruct (uW stdout) as [p|]; simpl.
    + match goal with
      | |- context [workflows_loop _ _ _ _ _ _ _ _ ?o ?l] =>
          destruct (workflows_loop_public gh uR uB now last p o l)
            as [(calls & Hlog & Hcalls) Hres]
      end.
      { constructor. }
      split; [|exact Hres].
      eexists. split; [rewrite Hlog, <- app_assoc; reflexivity|].
      constructor; [reflexivity | exact Hcalls].
    + split; [eexists; split; [reflexivity | repeat constructor]|].
      intros out [=].
Qed.

(** The sample fetch of the public repository does return workflows. *)
Example sampleFetch_public :
  snd (sampleFetch false)
  = inr [ {| Name := "build"; Runs := [buildRun]; BillableMs := 0 |};
          {| Name := "docs"; Runs := []; BillableMs := 0 |} ].
Proof. vm_compute. reflexivity. Qed.

Lemma C6_public_repository_unbilled_witness :
  Forall (fun w => BillableMs w = 0)
    [ {| Name := "build"; Runs := [buildRun]; BillableMs := 0 |};
      {| Name := "docs"; Runs := []; BillableMs := 0 |} ].
Proof.
  refine (proj2 (C6_public_repository_unbilled sampleGh sampleWorkflows
                   sampleRunsOf sampleBillable sampleNow
                   {| RepoName := "acme/app"; Private := false; Workflows := [] |}
                   (24 * GoTime.Hour) [] _) _ _).
  - reflexivity.
  - vm_compute. reflexivity.
Defined.

(** C1: the program differs.  In the sample account, fetched as a private
    repository, ["build"] has one run in the window, billed 60000 ms, and
    ["docs"] has none.  The accumulator [totalMs] is declared before the loop
    over the workflows and never reset, so ["docs"] is given the 60000 ms
    of ["build"] although its own runs sum to 0, and the total of [_main]
    counts them twice. *)
Theorem C1_billable_leaks_across_workflows :
  let build := {| Name := "build"; Runs := [buildRun]; BillableMs := 60000 |} in
  let docs := {| Name := "docs"; Runs := []; BillableMs := 60000 |} in
  snd (sampleFetch true) = inr [build; docs]
  /\ ownBillableMs sampleGh sampleBillable (Runs build) = Some 60000
  /\ ownBillableMs sampleGh sampleBillable (Runs docs) = Some 0
  /\ BillableMs docs = 60000
  /\ sumBillableMs 0 [build; docs] = 120000.
Proof. vm_compute. repeat (split; [reflexivity|]). reflexivity. Qed.

(** A workflow without runs has an empty health line and a zero average. *)
Lemma no_runs_health_and_average (w : workflow) :
  Runs w = [] -> RenderHealth w = [] /\ AverageElapsed w = 0.
Proof.
  intros H. unfold RenderHealth, AverageElapsed. rewrite H. split; reflexivity.
Qed.

(** C7: the program differs on [BillableMs].  The workflow ["docs"] of the
    sample account, fetched as a private repository, has an empty list of
    filtered runs; its health line is empty and its average elapsed time is
    zero, but its [BillableMs] is the 60000 ms accumulated for ["build"]. *)
Theorem C7_empty_run_list_billable :
  let build := {| Name := "build"; Runs := [buildRun]; BillableMs := 60000 |} in
  let docs := {| Name := "docs"; Runs := []; BillableMs := 60000 |} in
  snd (sampleFetch true) = inr [build; docs]
  /\ Runs docs = []
  /\ RenderHealth docs = []
  /\ AverageElapsed docs = 0
  /\ BillableMs docs <> 0.
Proof. vm_compute. repeat (split; [reflexivity|]). discriminate. Qed.

(** *** What the accumulator of [getWorkflows] holds *)

Section RunningTotal.

Variable gh : list string -> error + string.
Variable unmarshalRuns : string -> option (list runPayload).
Variable unmarshalBillable : string -> option billablePayload.
Variable now : Z.

(** The billing loop adds the billed milliseconds of [runs] to [totalMs]. *)
Lemma billable_loop_total runs : forall totalMs log log' totalMs',
  isInt64 totalMs ->
  billable_loop gh unmarshalBillable runs totalMs log = (log', inr totalMs') ->
  exists own, ownBillableMs gh unmarshalBillable runs = Some own
              /\ totalMs' = wrap64 (totalMs + own).
Proof.
  induction runs as [|r runs IH]; intros t log log' t' Ht Hrun; simpl in *.
  - injection Hrun as _ <-. exists 0. split; [reflexivity|].
    rewrite Z.add_0_r. symmetry. now apply wrap64_id.
  - unfold bind, orErrorf, callGh, decode, ret, throw in Hrun.
    destruct (gh _) as [e | stdout]; [discriminate Hrun|].
    destruct (unmarshalBillable stdout) as [bp|]; [|discriminate Hrun].
    apply IH in Hrun as (own & Hown & ->); [|apply wrap64_range].
    rewrite Hown. eexists. split; [reflexivity|].
    unfold add64. rewrite wrap64_add_l.
    replace (t + wrap64 (wrap64 (MacOs bp + Windows bp) + Ubuntu bp) + own)
      with (t + own + wrap64 (wrap64 (MacOs bp + Windows bp) + Ubuntu bp)) by lia.
    rewrite wrap64_add_r.
    replace (t + own + (wrap64 (MacOs bp + Windows bp) + Ubuntu bp))
      with (t + own + Ubuntu bp + wrap64 (MacOs bp + Windows bp)) by lia.
    rewrite wrap64_add_r. f_equal. lia.
Qed.

(** The loop over the workflows of a private repository appends workflows
    whose [BillableMs] are running totals. *)
Lemma workflows_loop_running_totals last p : forall totalMs out log log' out',
  isInt64 totalMs ->
  workflows_loop gh unmarshalRuns unmarshalBillable now true last p totalMs out log
  = (log', inr out') ->
  exists new, out' = out ++ new
              /\ runningTotals gh unmarshalBillable totalMs new.
Proof.
  induction p as [|w p IH]; intros t out log log' out' Ht Hrun; simpl in Hrun.
  - injection Hrun as _ <-. exists []. split; [now rewrite app_nil_r | exact I].
  - destruct (String.prefix "disabled" (wp_State w)); [now apply IH in Hrun|].
    unfold bind at 1 2 3, orErrorf, callGh, decode, ret, throw in Hrun.
    destruct (gh _) as [e | stdout]; [discriminate Hrun|].
    destruct (unmarshalRuns stdout) as [rs|]; [|discriminate Hrun].
    destruct (billable_loop gh unmarshalBillable (filterRuns now last rs) t _)
      as [log1 [e | t1]] eqn:Hbill; [discriminate Hrun|].
    apply billable_loop_total in Hbill as (own & Hown & ->); [|exact Ht].
    apply IH in Hrun as (new & -> & Hnew); [|apply wrap64_range].
    eexists. split; [rewrite <- app_assoc; reflexivity|].
    simpl. split; [exists own; split; [exact Hown | reflexivity] | exact Hnew].
Qed.

End RunningTotal.

(** X8.  Every listing of a private repository that [getWorkflows] returns
    carries running totals, from 0: the [BillableMs] of a workflow is the
    64-bit sum of the billed milliseconds of its own runs and of the
    [BillableMs] of the workflow before it. *)
Lemma getWorkflows_running_totals
    (gh : list string -> error + string)
    (unmarshalWorkflows : string -> option (list workflowsPayload))
    (unmarshalRuns : string -> option (list runPayload))
    (unmarshalBillable : string -> option billablePayload)
    (now : Z) (repoData : repositoryData) (last : Z)
    (log log' : list (list string)) (out : list workflow) :
  Private repoData = true ->
  getWorkflows gh unmarshalWorkflows unmarshalRuns unmarshalBillable now
    repoData last log = (log', inr out) ->
  runningTotals gh unmarshalBillable 0 out.
Proof.
  intros Hpriv Hrun. unfold getWorkflows in Hrun. rewrite Hpriv in Hrun.
  unfold bind at 1 2, callGh, decode, ret, throw in Hrun.
  destruct (gh _) as [e | stdout]; [discriminate Hrun|].
  destruct (unmarshalWorkflows stdout) as [p|]; [|discriminate Hrun].
  apply workflows_loop_running_totals in Hrun as (new & -> & Hnew);
    [exact Hnew | vm_compute; split; discriminate].
Qed.

(** *** Side conditions that hold in practice *)

(** A window that is not negative and a run that did not finish in the
    future: the subtraction of the filter does not overflow. *)
Lemma past_run_no_overflow now window t :
  0 <= window <= GoTime.maxDuration -> t <= now ->
  isInt64 (window - GoTime.Since now t).
Proof.
  intros Hw Ht. pose proof (Since_range now t) as Hs.
  assert (0 <= GoTime.Since now t).
  { unfold GoTime.Since, GoTime.Sub, GoTime.minDuration, GoTime.maxDuration,
      minInt64, maxInt64.
    destruct (Z.ltb_spec (now - t) (- 2 ^ 63)); [lia|].
    destruct (Z.ltb_spec (2 ^ 63 - 1) (now - t)); lia. }
  unfold isInt64, GoTime.maxDuration, minInt64, maxInt64 in *. lia.
Qed.

(** With [cardsPerRow >= 1] the guard of [_main] for a repository without
    workflows changes nothing: the grid of no card has no row. *)
Lemma repoCardRows_cardGrid (renderCard : workflow -> string) (c : Z)
    (r : repositoryData) :
  1 <= c -> repoCardRows renderCard c r = cardGrid renderCard c (Workflows r).
Proof.
  intros Hc. unfold repoCardRows.
  destruct (Workflows r) as [|w ws]; [|reflexivity]. simpl.
  unfold cardGrid. rewrite totalRowsOf_ceil by exact Hc. rewrite make_ceil.
  assert (ceilRows (length (@nil workflow)) c = 0%nat) as ->.
  { unfold ceilRows. simpl. rewrite Z.div_small by lia. reflexivity. }
  reflexivity.
Qed.

(** * Further properties *)

(** ** Names on the cards *)

Lemma string_length_app (a b : string) :
  String.length (a +:+ b) = (String.length a + String.length b)%nat.
Proof.
  induction a as [|c a IH]; [reflexivity|].
  change (S (String.length (a +:+ b)) = S (String.length a + String.length b)).
  now rewrite IH.
Qed.

Lemma substring_app_exact (a b : string) :
  substring 0 (String.length a) (a +:+ b) = a.
Proof.
  induction a as [|c a IH]; [destruct b; reflexivity|].
  change (String c (substring 0 (String.length a) (a +:+ b)) = String c a).
  now rewrite IH.
Qed.

(** What [truncateWorkflowName] returns for a limit that is not negative. *)
Lemma truncate_cases (name : string) (limit : Z) :
  0 <= limit ->
  (Z.of_nat (String.length name) <= limit
   /\ truncateWorkflowName name limit = Some name)
  \/ (exists kept,
         Z.of_nat (String.length kept) = limit
         /\ limit < Z.of_nat (String.length name)
         /\ truncateWorkflowName name limit = Some (kept +:+ "...")).
Proof.
  intros H0. unfold truncateWorkflowName, slicePrefix.
  destruct (Z.ltb_spec limit (Z.of_nat (String.length name))) as [Hlt | Hge];
    [right | left; split; [lia | reflexivity]].
  destruct (Z.ltb_spec limit 0); [lia|].
  destruct (Z.ltb_spec (Z.of_nat (String.length name)) limit); [lia|]. simpl.
  destruct (substring_prefix name (Z.to_nat limit) ltac:(lia)) as (rest & _ & Hlen).
  eexists. split; [|split; [exact Hlt | reflexivity]]. lia.
Qed.

(** X1.  With a limit that is not negative, [truncateWorkflowName] always
    returns a name, of at most [limit + 3] bytes: the name itself when it
    takes at most [limit] bytes, and otherwise a text of exactly [limit + 3]
    bytes. *)
Theorem truncate_length_bound :
  forall (name : string) (limit : Z),
    0 <= limit ->
    exists shown,
      truncateWorkflowName name limit = Some shown
      /\ Z.of_nat (String.length shown) <= limit + 3
      /\ (Z.of_nat (String.length name) <= limit -> shown = name)
      /\ (limit < Z.of_nat (String.length name) ->
          Z.of_nat (String.length shown) = limit + 3).
Proof.
  intros name limit H0.
  destruct (truncate_cases name limit H0) as [[Hle Heq] | (kept & Hk & Hlt & Heq)].
  - exists name. split; [exact Heq|]. split; [lia|]. split; [reflexivity | lia].
  - exists (kept +:+ "..."). split; [exact Heq|].
    assert (Hlen : Z.of_nat (String.length (kept +:+ "...")) = limit + 3).
    { rewrite string_length_app. simpl. lia. }
    split; [lia|]. split; [intros Hle; exfalso; lia | intros _; exact Hlen].
Qed.

Lemma truncate_length_bound_witness :
  exists shown,
    truncateWorkflowName "continuous-integration" defaultWorkflowNameLength
    = Some shown
    /\ Z.of_nat (String.length shown) <= defaultWorkflowNameLength + 3.
Proof.
  destruct (truncate_length_bound "continuous-integration"
              defaultWorkflowNameLength ltac:(vm_compute; discriminate))
    as (shown & Heq & Hlen & _).
  exists shown. split; [exact Heq | exact Hlen].
Defined.

(** X2.  With a limit that is not negative, truncating twice is truncating
    once: a name that was cut is not cut again. *)
Theorem truncate_idempotent :
  forall (name shown : string) (limit : Z),
    0 <= limit ->
    truncateWorkflowName name limit = Some shown ->
    truncateWorkflowName shown limit = Some shown.
Proof.
  intros name shown limit H0 Hname.
  destruct (truncate_cases name limit H0) as [[Hle Heq] | (kept & Hk & Hlt & Heq)];
    rewrite Heq in Hname; injection Hname as <-; [exact Heq|].
  unfold truncateWorkflowName, slicePrefix.
  assert (Hlen : Z.of_nat (String.length (kept +:+ "...")) = limit + 3).
  { rewrite string_length_app. simpl. lia. }
  destruct (Z.ltb_spec limit (Z.of_nat (String.length (kept +:+ "...")))); [|lia].
  destruct (Z.ltb_spec limit 0); [lia|].
  destruct (Z.ltb_spec (Z.of_nat (String.length (kept +:+ "..."))) limit); [lia|].
  simpl. replace (Z.to_nat limit) with (String.length kept) by lia.
  now rewrite substring_app_exact.
Qed.

Lemma truncate_idempotent_witness :
  truncateWorkflowName "continuous-integr..." defaultWorkflowNameLength
  = Some "continuous-integr...".
Proof.
  apply (truncate_idempotent "continuous-integration" "continuous-integr..."
           defaultWorkflowNameLength).
  - vm_compute. discriminate.
  - reflexivity.
Defined.

(** ** The runs that are kept *)

Lemma Sub_range t u : isInt64 (GoTime.Sub t u).
Proof. exact (Since_range t u). Qed.

Lemma Since_past now t : t <= now -> 0 <= GoTime.Since now t.
Proof.
  intros Ht. unfold GoTime.Since, GoTime.Sub, GoTime.minDuration,
    GoTime.maxDuration, minInt64, maxInt64.
  destruct (Z.ltb_spec (now - t) (- 2 ^ 63)); [lia|].
  destruct (Z.ltb_spec (2 ^ 63 - 1) (now - t)); lia.
Qed.

Lemma filterRuns_fetched now last rs : Forall fetchedRun (filterRuns now last rs).
Proof.
  rewrite filterRuns_spec. apply Forall_forall. intros rr Hin.
  apply list_elem_of_In, in_map_iff in Hin as (r & <- & Hin).
  apply filter_In in Hin as [_ Hk]. unfold kept in Hk.
  apply andb_prop in Hk as [Hc _]. split.
  - now apply String.eqb_eq in Hc.
  - apply Sub_range.
Qed.

(** X3.  Widening the window never loses a run: for windows
    [0 <= w1 <= w2] and raw runs that did not finish after the reading of
    the clock, the runs kept under [w1] are kept under [w2], in the same
    order. *)
Theorem filterRuns_window_monotone :
  forall (now w1 w2 : Z) (rs : list runPayload),
    0 <= w1 -> w1 <= w2 -> w2 <= GoTime.maxDuration ->
    finishedByNow now rs ->
    filterRuns now w1 rs `sublist_of` filterRuns now w2 rs.
Proof.
  intros now w1 w2 rs H0 H12 H2 Hpast. rewrite !filterRuns_spec.
  induction Hpast as [|r rs Hr _ IH]; [constructor|]. simpl.
  assert (Hk : forall w, 0 <= w <= GoTime.maxDuration ->
                         kept now w r = inWindow now w r).
  { intros w Hw. apply kept_inWindow, past_run_no_overflow; assumption. }
  rewrite (Hk w1), (Hk w2) by lia. unfold inWindow.
  destruct (isCompleted (rp_Status r)); simpl; [|exact IH].
  destruct (Z.ltb_spec (GoTime.Since now (UpdatedAt r)) w1);
    destruct (Z.ltb_spec (GoTime.Since now (UpdatedAt r)) w2); simpl.
  - now apply sublist_skip.
  - lia.
  - now apply sublist_cons.
  - exact IH.
Qed.

Lemma filterRuns_window_monotone_witness :
  filterRuns sampleNow (24 * GoTime.Hour) sampleRuns
    `sublist_of` filterRuns sampleNow (48 * GoTime.Hour) sampleRuns.
Proof.
  apply filterRuns_window_monotone.
  - vm_compute. discriminate.
  - vm_compute. discriminate.
  - vm_compute. discriminate.
  - repeat (first [apply Forall_nil_2
                  | apply Forall_cons_2; [vm_compute; discriminate|]]).
Defined.

(** X4.  A window that is not positive keeps nothing: for
    [- 2^62 <= window <= 0] and raw runs that finished at most [2^62] ns
    (146 years) before the reading of the clock and not after it, the
    filter returns no run. *)
Theorem filterRuns_nonpositive_window :
  forall (now window : Z) (rs : list runPayload),
    - 2 ^ 62 <= window <= 0 ->
    Forall (fun r => now - 2 ^ 62 <= UpdatedAt r <= now) rs ->
    filterRuns now window rs = [].
Proof.
  intros now window rs Hw Hrs. rewrite filterRuns_spec.
  induction Hrs as [|r rs Hr _ IH]; [reflexivity|]. simpl.
  assert (Hs : 0 <= GoTime.Since now (UpdatedAt r) <= 2 ^ 62).
  { split; [apply Since_past; lia|].
    unfold GoTime.Since, GoTime.Sub, GoTime.minDuration, GoTime.maxDuration,
      minInt64, maxInt64.
    destruct (Z.ltb_spec (now - UpdatedAt r) (- 2 ^ 63)); [lia|].
    destruct (Z.ltb_spec (2 ^ 63 - 1) (now - UpdatedAt r)); lia. }
  rewrite kept_inWindow by (unfold isInt64, minInt64, maxInt64; lia).
  unfold inWindow.
  destruct (Z.ltb_spec (GoTime.Since now (UpdatedAt r)) window); [lia|].
  rewrite andb_false_r. exact IH.
Qed.

Lemma filterRuns_nonpositive_window_witness :
  filterRuns sampleNow 0 sampleRuns = [].
Proof.
  apply filterRuns_nonpositive_window.
  - vm_compute. split; discriminate.
  - repeat (first [apply Forall_nil_2
                  | apply Forall_cons_2; [vm_compute; split; discriminate|]]).
Defined.

(** ** What a successful [getWorkflows] did *)

Section FetchShape.

Variable gh : list string -> error + string.
Variable unmarshalWorkflows : string -> option (list workflowsPayload).
Variable unmarshalRuns : string -> option (list runPayload).
Variable unmarshalBillable : string -> option billablePayload.
Variable now : Z.

Lemma billable_loop_calls runs : forall totalMs log log' totalMs',
  billable_loop gh unmarshalBillable runs totalMs log = (log', inr totalMs') ->
  log' = log ++ map timingCall runs.
Proof.
  induction runs as [|r runs IH]; intros t log log' t' Hrun; simpl in *.
  - injection Hrun as <- _. now rewrite app_nil_r.
  - unfold bind, orErrorf, callGh, decode, ret, throw in Hrun.
    destruct (gh _) as [e | stdout]; [discriminate Hrun|].
    destruct (unmarshalBillable stdout) as [bp|]; [|discriminate Hrun].
    apply IH in Hrun as ->. rewrite <- app_assoc. reflexivity.
Qed.

Lemma workflows_loop_success private last p :
  forall totalMs out log log' out',
    workflows_loop gh unmarshalRuns unmarshalBillable now private last p
      totalMs out log = (log', inr out') ->
    exists new,
      out' = out ++ new
      /\ Forall2 (fetchedFrom gh unmarshalRuns now last) (enabled p) new
      /\ log' = log ++ concat (zip_with (callsFor private) (enabled p) new).
Proof.
  induction p as [|w p IH]; intros t out log log' out' Hrun; simpl in Hrun.
  - injection Hrun as <- <-. exists []. simpl.
    split; [now rewrite app_nil_r|]. split; [constructor | now rewrite app_nil_r].
  - unfold enabled. simpl.
    destruct (String.prefix "disabled" (wp_State w)); simpl;
      [now apply IH in Hrun|].
    unfold bind at 1 2 3, orErrorf, callGh, decode, ret, throw in Hrun.
    destruct (gh _) as [e | stdout] eqn:Hgh; [discriminate Hrun|].
    destruct (unmarshalRuns stdout) as [rs|] eqn:Hrs; [|discriminate Hrun].
    destruct private.
    + destruct (billable_loop gh unmarshalBillable (filterRuns now last rs) t _)
        as [log1 [e | t1]] eqn:Hbill; [discriminate Hrun|].
      apply billable_loop_calls in Hbill as ->.
      apply IH in Hrun as (new & -> & Hnew & ->).
      eexists (_ :: new). split; [rewrite <- app_assoc; reflexivity|].
      split; [constructor; [exists stdout, rs; repeat split; assumption | exact Hnew]|].
      simpl. rewrite <- !app_assoc. reflexivity.
    + apply IH in Hrun as (new & -> & Hnew & ->).
      eexists (_ :: new). split; [rewrite <- app_assoc; reflexivity|].
      split; [constructor; [exists stdout, rs; repeat split; assumption | exact Hnew]|].
      simpl. rewrite <- !app_assoc. reflexivity.
Qed.

Lemma getWorkflows_success repoData last log log' out :
  getWorkflows gh unmarshalWorkflows unmarshalRuns unmarshalBillable now
    repoData last log = (log', inr out) ->
  exists stdout p,
    gh (workflowsCall repoData) = inr stdout
    /\ unmarshalWorkflows stdout = Some p
    /\ Forall2 (fetchedFrom gh unmarshalRuns now last) (enabled p) out
    /\ log' = log ++ workflowsCall repoData
                     :: concat (zip_with (callsFor (Private repoData)) (enabled p) out).
Proof.
  intros Hrun. unfold getWorkflows in Hrun.
  unfold bind at 1 2, callGh, decode, ret, throw in Hrun.
  fold (workflowsCall repoData) in Hrun.
  destruct (gh (workflowsCall repoData)) as [e | stdout] eqn:Hgh;
    [discriminate Hrun|].
  destruct (unmarshalWorkflows stdout) as [p|] eqn:Hp; [|discriminate Hrun].
  apply workflows_loop_success in Hrun as (new & -> & Hnew & ->).
  exists stdout, p. split; [reflexivity|]. split; [exact Hp|].
  split; [exact Hnew|]. rewrite <- app_assoc. reflexivity.
Qed.

End FetchShape.

Lemma RenderHealth_fetched (w : workflow) :
  Forall fetchedRun (Runs w) ->
  RenderHealth w = map (fun r => renderConclusion (Conclusion r)) (take 6 (Runs w)).
Proof.
  intros Hruns. rewrite RenderHealth_spec.
  apply Forall_take with (n := 6%nat) in Hruns.
  induction Hruns as [|r rs [Hc _] _ IH]; [reflexivity|]. simpl.
  rewrite IH. f_equal. unfold renderRun, isCompleted. now rewrite Hc.
Qed.

Lemma fetchedFrom_runs gh unmarshalRuns now last p out :
  Forall2 (fetchedFrom gh unmarshalRuns now last) p out ->
  Forall (fun w => Forall fetchedRun (Runs w)) out.
Proof.
  induction 1 as [|pw w p out (stdout & rs & _ & _ & _ & Hruns) _ IH];
    constructor; [|exact IH].
  rewrite Hruns. apply filterRuns_fetched.
Qed.

(** X5.  Every workflow that [getWorkflows] returns holds only completed
    runs, with elapsed times in the range of a [Duration].  So its health
    line never shows the dash of an unfinished run: it has one symbol per
    run of the first 6, the one of the run's conclusion. *)
Theorem getWorkflows_runs_completed :
  forall (gh : list string -> error + string)
         (unmarshalWorkflows : string -> option (list workflowsPayload))
         (unmarshalRuns : string -> option (list runPayload))
         (unmarshalBillable : string -> option billablePayload)
         (now : Z) (repoData : repositoryData) (last : Z)
         (log : list (list string)) (out : list workflow),
    snd (getWorkflows gh unmarshalWorkflows unmarshalRuns unmarshalBillable now
           repoData last log) = inr out ->
    Forall (fun w =>
              Forall (fun r => Status r = "completed" /\ isInt64 (Elapsed r))
                     (Runs w)
              /\ RenderHealth w
                 = map (fun r => renderConclusion (Conclusion r)) (take 6 (Runs w))
              /\ length (RenderHealth w) = Nat.min 6 (length (Runs w)))
           out.
Proof.
  intros gh uW uR uB now repoData last log out Hrun.
  destruct (getWorkflows gh uW uR uB now repoData last log) as [log' res] eqn:Hg.
  simpl in Hrun. subst res.
  apply getWorkflows_success in Hg as (stdout & p & _ & _ & Hout & _).
  apply fetchedFrom_runs in Hout.
  eapply Forall_impl; [exact Hout|]. intros w Hw. split; [exact Hw|].
  split; [now apply RenderHealth_fetched|].
  rewrite RenderHealth_spec, length_map, length_take. reflexivity.
Qed.

Lemma getWorkflows_runs_completed_witness :
  Forall (fun w =>
            Forall (fun r => Status r = "completed" /\ isInt64 (Elapsed r))
                   (Runs w)
            /\ RenderHealth w
               = map (fun r => renderConclusion (Conclusion r)) (take 6 (Runs w))
            /\ length (RenderHealth w) = Nat.min 6 (length (Runs w)))
    [ {| Name := "build"; Runs := [buildRun]; BillableMs := 60000 |};
      {| Name := "docs"; Runs := []; BillableMs := 60000 |} ].
Proof.
  apply (getWorkflows_runs_completed sampleGh sampleWorkflows sampleRunsOf
           sampleBillable sampleNow
           {| RepoName := "acme/app"; Private := true; Workflows := [] |}
           (24 * GoTime.Hour) []).
  vm_compute. reflexivity.
Defined.

(** X6.  When [getWorkflows] succeeds, the listing of workflows was fetched
    and decoded, and the result has exactly one workflow for every entry of
    the listing whose state does not begin with ["disabled"], in the order
    of the listing: it carries the name of its entry, and its runs are the
    filtered runs of the run listing of that entry, which was fetched and
    decoded. *)
Theorem getWorkflows_one_per_enabled :
  forall (gh : list string -> error + string)
         (unmarshalWorkflows : string -> option (list workflowsPayload))
         (unmarshalRuns : string -> option (list runPayload))
         (unmarshalBillable : string -> option billablePayload)
         (now : Z) (repoData : repositoryData) (last : Z)
         (log : list (list string)) (out : list workflow),
    snd (getWorkflows gh unmarshalWorkflows unmarshalRuns unmarshalBillable now
           repoData last log) = inr out ->
    exists stdout p,
      gh (workflowsCall repoData) = inr stdout
      /\ unmarshalWorkflows stdout = Some p
      /\ map Name out
         = map wp_Name
             (List.filter (fun w => negb (String.prefix "disabled" (wp_State w))) p)
      /\ Forall2 (fun pw w =>
                    exists stdout' rs,
                      gh (runsCall pw) = inr stdout'
                      /\ unmarshalRuns stdout' = Some rs
                      /\ Runs w = filterRuns now last rs)
                 (List.filter (fun w => negb (String.prefix "disabled" (wp_State w))) p)
                 out.
Proof.
  intros gh uW uR uB now repoData last log out Hrun.
  destruct (getWorkflows gh uW uR uB now repoData last log) as [log' res] eqn:Hg.
  simpl in Hrun. subst res.
  apply getWorkflows_success in Hg as (stdout & p & Hgh & Hp & Hout & _).
  exists stdout, p. split; [exact Hgh|]. split; [exact Hp|].
  fold (enabled p). split.
  - induction Hout as [|pw w ps ws (_ & _ & _ & _ & Hn & _) _ IH]; [reflexivity|].
    simpl. now rewrite Hn, IH.
  - eapply Forall2_impl; [exact Hout|].
    intros pw w (stdout' & rs & H1 & H2 & _ & H3). exists stdout', rs. auto.
Qed.

Lemma getWorkflows_one_per_enabled_witness :
  exists stdout p,
    sampleGh (workflowsCall {| RepoName := "acme/app"; Private := true;
                               Workflows := [] |}) = inr stdout
    /\ sampleWorkflows stdout = Some p
    /\ map Name [ {| Name := "build"; Runs := [buildRun]; BillableMs := 60000 |};
                  {| Name := "docs"; Runs := []; BillableMs := 60000 |} ]
       = map wp_Name
           (List.filter (fun w => negb (String.prefix "disabled" (wp_State w))) p).
Proof.
  destruct (getWorkflows_one_per_enabled sampleGh sampleWorkflows sampleRunsOf
              sampleBillable sampleNow
              {| RepoName := "acme/app"; Private := true; Workflows := [] |}
              (24 * GoTime.Hour) []
              [ {| Name := "build"; Runs := [buildRun]; BillableMs := 60000 |};
                {| Name := "docs"; Runs := []; BillableMs := 60000 |} ])
    as (stdout & p & H1 & H2 & H3 & _).
  - vm_compute. reflexivity.
  - exists stdout, p. auto.
Defined.

(** X7.  When [getWorkflows] succeeds, the calls of [gh] it made are, in
    this order: the listing of workflows, then for every workflow returned
    the listing of its runs followed, in a private repository only, by one
    timing call for every run kept.  Nothing is called for a disabled
    workflow or for a run that was filtered out; the number of calls is
    1 + the number of workflows returned + (private only) the number of runs
    returned. *)
Theorem getWorkflows_calls_made :
  forall (gh : list string -> error + string)
         (unmarshalWorkflows : string -> option (list workflowsPayload))
         (unmarshalRuns : string -> option (list runPayload))
         (unmarshalBillable : string -> option billablePayload)
         (now : Z) (repoData : repositoryData) (last : Z)
         (log log' : list (list string)) (out : list workflow),
    getWorkflows gh unmarshalWorkflows unmarshalRuns unmarshalBillable now
      repoData last log = (log', inr out) ->
    exists stdout p,
      gh (workflowsCall repoData) = inr stdout
      /\ unmarshalWorkflows stdout = Some p
      /\ log' = log ++ workflowsCall repoData
                       :: concat (zip_with
                                    (fun pw w =>
                                       runsCall pw
                                       :: (if Private repoData
                                           then map timingCall (Runs w) else []))
                                    (List.filter
                                       (fun w => negb (String.prefix "disabled" (wp_State w)))
                                       p)
                                    out)
      /\ length log'
         = (length log + 1 + length out
            + (if Private repoData
               then list_sum (map (fun w => length (Runs w)) out) else 0))%nat.
Proof.
  intros gh uW uR uB now repoData last log log' out Hrun.
  apply getWorkflows_success in Hrun as (stdout & p & Hgh & Hp & Hout & ->).
  exists stdout, p. split; [exact Hgh|]. split; [exact Hp|].
  split; [reflexivity|].
  rewrite length_app. simpl. unfold callsFor.
  assert (Hlen : length (concat (zip_with
                   (fun pw w => runsCall pw
                      :: (if Private repoData then map timingCall (Runs w) else []))
                   (enabled p) out))
                 = (length out
                    + (if Private repoData
                       then list_sum (map (fun w => length (Runs w)) out) else 0))%nat).
  { clear Hgh Hp. induction Hout as [|pw w ps ws _ _ IH]; simpl.
    - now destruct (Private repoData).
    - rewrite length_app, IH. destruct (Private repoData); simpl.
      + rewrite length_map. lia.
      + lia. }
  rewrite Hlen. lia.
Qed.

Lemma getWorkflows_calls_made_witness :
  length (fst (sampleFetch true)) = 4%nat.
Proof.
  destruct (getWorkflows_calls_made sampleGh sampleWorkflows sampleRunsOf
              sampleBillable sampleNow
              {| RepoName := "acme/app"; Private := true; Workflows := [] |}
              (24 * GoTime.Hour) [] (fst (sampleFetch true))
              [ {| Name := "build"; Runs := [buildRun]; BillableMs := 60000 |};
                {| Name := "docs"; Runs := []; BillableMs := 60000 |} ])
    as (stdout & p & _ & _ & _ & Hlen).
  - vm_compute. reflexivity.
  - exact Hlen.
Defined.

Lemma getWorkflows_running_totals_witness :
  runningTotals sampleGh sampleBillable 0
    [ {| Name := "build"; Runs := [buildRun]; BillableMs := 60000 |};
      {| Name := "docs"; Runs := []; BillableMs := 60000 |} ].
Proof.
  apply (getWorkflows_running_totals sampleGh sampleWorkflows sampleRunsOf
           sampleBillable sampleNow
           {| RepoName := "acme/app"; Private := true; Workflows := [] |}
           (24 * GoTime.Hour) [] (fst (sampleFetch true))).
  - reflexivity.
  - vm_compute. reflexivity.
Defined.

(** ** Listing the repositories *)

Section ReposProps.

Variable gh : list string -> error + string.
Variable unmarshalRepo : string -> option repositoryData.
Variable unmarshalRepos : string -> option (list (option repositoryData)).

Lemma explicitRepos_loop_spec selector names : forall result log,
  let res := explicitRepos_loop gh unmarshalRepo selector names result log in
  exists calls,
    fst res = log ++ calls
    /\ calls `prefix_of` map (repoCall selector) names
    /\ (forall repos, snd res = inr repos ->
          calls = map (repoCall selector) names
          /\ exists new, repos = result ++ map Some new
                         /\ Forall2 (repoOf gh unmarshalRepo selector) names new)
    /\ (forall err, snd res = inl err ->
          exists name cause,
            err = FetchFailed selector name cause
            /\ name ∈ names
            /\ last calls = Some (repoCall selector name)).
Proof.
  induction names as [|name names IH]; intros result log; simpl.
  - exists []. split; [now rewrite app_nil_r|]. split; [reflexivity|].
    split; [|intros err [=]].
    intros repos [= <-]. split; [reflexivity|].
    exists []. split; [now rewrite app_nil_r | constructor].
  - unfold getRepo, bind, callGh, decode, ret, throw.
    fold (repoCall selector name).
    destruct (gh (repoCall selector name)) as [e | stdout] eqn:Hgh; simpl.
    + exists [repoCall selector name]. split; [reflexivity|].
      split; [now exists (map (repoCall selector) names)|].
      split; [intros repos [=]|].
      intros err [= <-]. exists name, e.
      split; [reflexivity|]. split; [left | reflexivity].
    + destruct (unmarshalRepo stdout) as [r|] eqn:Hr; simpl.
      * destruct (IH (result ++ [Some r]) (log ++ [repoCall selector name]))
          as (calls & Hlog & Hpre & Hok & Herr).
        exists (repoCall selector name :: calls).
        split; [rewrite Hlog, <- app_assoc; reflexivity|].
        split; [now apply prefix_cons|]. split.
        -- intros repos Hres. destruct (Hok repos Hres) as (-> & new & -> & Hnew).
           split; [reflexivity|]. exists (r :: new).
           split; [rewrite <- app_assoc; reflexivity|].
           constructor; [exists stdout; split; assumption | exact Hnew].
        -- intros err Hres. destruct (Herr err Hres) as (n & cause & -> & Hin & Hlast).
           exists n, cause. split; [reflexivity|]. split; [now right|].
           destruct calls as [|c calls]; [discriminate Hlast|].
           rewrite last_cons, Hlast. reflexivity.
      * exists [repoCall selector name]. split; [reflexivity|].
        split; [now exists (map (repoCall selector) names)|].
        split; [intros repos [=]|].
        intros err [= <-]. exists name, JsonFailed.
        split; [reflexivity|]. split; [left | reflexivity].
Qed.

End ReposProps.

(** X9.  With repository names on the command line, [populateRepos] asks
    [gh] for these repositories only, one call per name in the order given,
    and stops at the first that fails: it never lists the organisation or
    the user.  On success it returns one repository per name, in order, each
    as fetched and decoded; on failure the error names the repository whose
    call was the last one made.  The repositories returned are pointers to
    decoded values, none of them nil. *)
Theorem populateRepos_explicit :
  forall (gh : list string -> error + string)
         (unmarshalRepo : string -> option repositoryData)
         (unmarshalRepos : string -> option (list (option repositoryData)))
         (opts : options) (log : list (list string)),
    Repositories opts <> [] ->
    let res := populateRepos gh unmarshalRepo unmarshalRepos opts log in
    exists calls,
      fst res = log ++ calls
      /\ calls `prefix_of` map (repoCall (Selector opts)) (Repositories opts)
      /\ (orgReposCall (Selector opts) ∉ calls)
      /\ (userReposCall (Selector opts) ∉ calls)
      /\ (forall repos, snd res = inr repos ->
            calls = map (repoCall (Selector opts)) (Repositories opts)
            /\ exists rs,
                 repos = map Some rs
                 /\ Forall2 (repoOf gh unmarshalRepo (Selector opts))
                            (Repositories opts) rs)
      /\ (forall err, snd res = inl err ->
            exists name cause,
              err = FetchFailed (Selector opts) name cause
              /\ name ∈ Repositories opts
              /\ last calls = Some (repoCall (Selector opts) name)).
Proof.
  intros gh uR uRs opts log Hne. unfold populateRepos.
  destruct (Repositories opts) as [|n0 ns] eqn:Hnames; [contradiction|].
  change (Nat.ltb 0 (length (n0 :: ns))) with true. cbv iota.
  destruct (explicitRepos_loop_spec gh uR (Selector opts) (n0 :: ns) [] log)
    as (calls & Hlog & Hpre & Hok & Herr).
  exists calls. split; [exact Hlog|]. split; [exact Hpre|].
  assert (Hcalls : forall c, c ∈ calls ->
            exists name, c = repoCall (Selector opts) name).
  { intros c Hc. destruct Hpre as [rest Hpre].
    assert (Hin : c ∈ map (repoCall (Selector opts)) (n0 :: ns)).
    { rewrite Hpre. apply elem_of_app. now left. }
    apply list_elem_of_In, in_map_iff in Hin as (name & <- & _). now exists name. }
  split; [|split].
  - intros Hin. apply Hcalls in Hin as (name & Heq). discriminate Heq.
  - intros Hin. apply Hcalls in Hin as (name & Heq). discriminate Heq.
  - split; [|exact Herr].
    intros repos Hres. destruct (Hok repos Hres) as (Hc & new & -> & Hnew).
    split; [exact Hc | exists new; split; [reflexivity | exact Hnew]].
Qed.

Lemma populateRepos_explicit_witness :
  snd (populateRepos accountGh accountRepo accountRepos
         {| Repositories := ["app"; "site"]; Last := 24 * GoTime.Hour;
            Selector := "acme" |} [])
  = inr [Some appRepo; Some siteRepo]
  /\ orgReposCall "acme"
     ∉ fst (populateRepos accountGh accountRepo accountRepos
              {| Repositories := ["app"; "site"]; Last := 24 * GoTime.Hour;
                 Selector := "acme" |} []).
Proof.
  destruct (populateRepos_explicit accountGh accountRepo accountRepos
              {| Repositories := ["app"; "site"]; Last := 24 * GoTime.Hour;
                 Selector := "acme" |} [] ltac:(discriminate))
    as (calls & Hlog & _ & Horg & _).
  split; [vm_compute; reflexivity|].
  rewrite Hlog. exact Horg.
Defined.

(** ** More on the card grid *)

Lemma cardGrid_rows_bounds (renderCard : workflow -> string) (c : Z)
    (ws : list workflow) (rows : list (list string)) :
  1 <= c ->
  cardGrid renderCard c ws = Some rows ->
  Forall (fun row => 1 <= Z.of_nat (length row) <= c) rows.
Proof.
  intros Hc Hgrid.
  destruct (cardGrid_shape renderCard c ws Hc)
    as (rows' & Hgrid' & _ & _ & Hfull & Hlast).
  rewrite Hgrid in Hgrid'. injection Hgrid' as <-.
  apply Forall_lookup. intros i row Hrow.
  pose proof (lookup_lt_Some _ _ _ Hrow) as Hi.
  destruct (Nat.eq_dec (S i) (length rows)) as [Hend | Hmid].
  - apply Hlast. rewrite last_lookup, <- Hend. exact Hrow.
  - rewrite (Hfull i row Hrow) by lia. lia.
Qed.

(** X10.  With [cardsPerRow >= 1] no row of the grid is empty and none
    holds more than [cardsPerRow] cards: a line is printed only for cards. *)
Theorem cardGrid_rows_filled :
  forall (renderCard : workflow -> string) (cardsPerRow : Z)
         (ws : list workflow) (rows : list (list string)),
    1 <= cardsPerRow ->
    cardGrid renderCard cardsPerRow ws = Some rows ->
    Forall (fun row => 1 <= Z.of_nat (length row) <= cardsPerRow) rows.
Proof.
  intros renderCard c ws rows Hc Hgrid.
  exact (cardGrid_rows_bounds renderCard c ws rows Hc Hgrid).
Qed.

Lemma cardGrid_rows_filled_witness :
  Forall (fun row => 1 <= Z.of_nat (length row) <= 3)
    [["a"; "b"; "c"]; ["d"; "e"; "f"]; ["g"]].
Proof.
  apply (cardGrid_rows_filled Name 3
           (map (fun name => {| Name := name; Runs := []; BillableMs := 0 |})
                ["a"; "b"; "c"; "d"; "e"; "f"; "g"])).
  - vm_compute. discriminate.
  - vm_compute. reflexivity.
Defined.

(** Rows of [c] elements, the last one of at most [c]: the element [i] of
    their concatenation is in row [i / c], at place [i mod c]. *)
Lemma chunks_lookup {A} (c : nat) (rows : list (list A)) :
  (0 < c)%nat ->
  (forall i row, rows !! i = Some row -> (S i < length rows)%nat -> length row = c) ->
  Forall (fun row => (length row <= c)%nat) rows ->
  forall i x, concat rows !! i = Some x ->
    exists row, rows !! (i / c)%nat = Some row /\ row !! (i mod c)%nat = Some x.
Proof.
  intros Hc. induction rows as [|r rows IH]; intros Hfull Hle i x Hx; simpl in Hx.
  - rewrite lookup_nil in Hx. discriminate.
  - apply Forall_cons in Hle as [Hr Hle].
    destruct (Nat.lt_ge_cases i (length r)) as [Hlt | Hge].
    + rewrite lookup_app_l in Hx by exact Hlt. exists r.
      rewrite Nat.div_small, Nat.mod_small by lia. split; [reflexivity | exact Hx].
    + rewrite lookup_app_r in Hx by exact Hge.
      destruct rows as [|r' rows'] eqn:Hrows;
        [simpl in Hx; rewrite lookup_nil in Hx; discriminate|].
      assert (Hlen : length r = c) by (apply (Hfull 0%nat r eq_refl); simpl; lia).
      rewrite Hlen in *. rewrite <- Hrows in *.
      destruct (IH (fun j row Hj Hlt => Hfull (S j) row Hj ltac:(simpl; lia))
                   Hle (i - c)%nat x Hx) as (row & Hrow & Hplace).
      exists row. replace i with ((i - c) + 1 * c)%nat at 1 2 by lia.
      rewrite Nat.div_add by lia. rewrite Nat.Div0.mod_add.
      rewrite Nat.add_1_r. split; [exact Hrow | exact Hplace].
Qed.

(** X11.  With [cardsPerRow >= 1] the place of a card depends only on its
    rank: the card of the workflow of rank [i] (from 0) is in row
    [i / cardsPerRow], at place [i mod cardsPerRow] in that row. *)
Theorem cardGrid_position :
  forall (renderCard : workflow -> string) (cardsPerRow : Z)
         (ws : list workflow) (rows : list (list string))
         (i : nat) (w : workflow),
    1 <= cardsPerRow ->
    cardGrid renderCard cardsPerRow ws = Some rows ->
    ws !! i = Some w ->
    exists row,
      rows !! Z.to_nat (Z.of_nat i / cardsPerRow) = Some row
      /\ row !! Z.to_nat (Z.of_nat i mod cardsPerRow) = Some (renderCard w).
Proof.
  intros renderCard c ws rows i w Hc Hgrid Hw.
  pose proof (cardGrid_rows_bounds renderCard c ws rows Hc Hgrid) as Hfilled.
  destruct (cardGrid_shape renderCard c ws Hc)
    as (rows' & Hgrid' & _ & Hcat & Hfull & _).
  rewrite Hgrid in Hgrid'. injection Hgrid' as <-.
  assert (Hx : concat rows !! i = Some (renderCard w)).
  { rewrite Hcat, list_lookup_fmap, Hw. reflexivity. }
  destruct (chunks_lookup (Z.to_nat c) rows ltac:(lia)) with (i := i)
    (x := renderCard w) as (row & Hrow & Hplace).
  - intros j row Hj Hlt. pose proof (Hfull j row Hj Hlt). lia.
  - eapply Forall_impl; [exact Hfilled|]. intros row Hr. simpl in Hr. lia.
  - exact Hx.
  - exists row.
    replace (Z.to_nat (Z.of_nat i / c)) with (i / Z.to_nat c)%nat
      by (rewrite <- (Z2Nat.id c) at 2 by lia;
          rewrite <- Nat2Z.inj_div, Nat2Z.id; reflexivity).
    replace (Z.to_nat (Z.of_nat i mod c)) with (i mod Z.to_nat c)%nat
      by (rewrite <- (Z2Nat.id c) at 2 by lia;
          rewrite <- Nat2Z.inj_mod, Nat2Z.id; reflexivity).
    split; [exact Hrow | exact Hplace].
Qed.

Lemma cardGrid_position_witness :
  exists row,
    [["a"; "b"; "c"]; ["d"; "e"; "f"]; ["g"]] !! Z.to_nat (4 / 3) = Some row
    /\ row !! Z.to_nat (4 mod 3) = Some "e".
Proof.
  apply (cardGrid_position Name 3
           (map (fun name => {| Name := name; Runs := []; BillableMs := 0 |})
                ["a"; "b"; "c"; "d"; "e"; "f"; "g"])
           [["a"; "b"; "c"]; ["d"; "e"; "f"]; ["g"]] 4%nat
           {| Name := "e"; Runs := []; BillableMs := 0 |}).
  - vm_compute. discriminate.
  - vm_compute. reflexivity.
  - reflexivity.
Defined.

Lemma cardGrid_negative (renderCard : workflow -> string) (c : Z)
    (ws : list workflow) :
  c < 0 -> ws <> [] -> cardGrid renderCard c ws = None.
Proof.
  intros Hc Hws. unfold cardGrid, totalRowsOf.
  destruct (Z.eqb_spec c 0); [lia|].
  destruct ws as [|w ws]; [contradiction|].
  assert (Ht : - (- Z.of_nat (length (w :: ws)) / c) <= 0).
  { enough (0 <= - Z.of_nat (length (w :: ws)) / c) by lia.
    rewrite <- Z.div_opp_opp by lia. apply Z.div_pos; lia. }
  unfold make.
  destruct (Z.ltb_spec (- (- Z.of_nat (length (w :: ws)) / c)) 0); [reflexivity|].
  replace (- (- Z.of_nat (length (w :: ws)) / c)) with 0 by lia.
  reflexivity.
Qed.

(** X12.  With a negative [cardsPerRow] the grid of any repository that
    has workflows panics: the number of rows is negative or zero, so either
    [make] or the first use of [cardRows[0]] fails. *)
Theorem cardGrid_negative_panics :
  forall (renderCard : workflow -> string) (cardsPerRow : Z) (ws : list workflow),
    cardsPerRow < 0 -> ws <> [] ->
    cardGrid renderCard cardsPerRow ws = None.
Proof.
  intros renderCard c ws Hc Hws. exact (cardGrid_negative renderCard c ws Hc Hws).
Qed.

Lemma cardGrid_negative_panics_witness :
  cardGrid Name (cardsPerRowOf 20)
    [ {| Name := "build"; Runs := []; BillableMs := 0 |} ] = None.
Proof.
  apply cardGrid_negative_panics.
  - vm_compute. reflexivity.
  - discriminate.
Defined.

(** ** The dashboard as a whole *)

Lemma cardsPerRowOf_quot (width : Z) :
  isInt64 width -> cardsPerRowOf width = Z.quot width 22 - 1.
Proof.
  intros Hw. unfold cardsPerRowOf, columnWidth, defaultWorkflowNameLength.
  apply wrap64_id. change (17 + 5) with 22.
  assert (H : 22 * Z.abs (Z.quot width 22) <= Z.abs width).
  { rewrite <- (Z.quot_abs width 22) by lia. change (Z.abs 22) with 22.
    apply Z.mul_quot_le; lia. }
  unfold isInt64, minInt64, maxInt64 in *. lia.
Qed.

Lemma cardsPerRowOf_wide (width : Z) :
  isInt64 width -> 44 <= width -> 1 <= cardsPerRowOf width.
Proof.
  intros Hw H44. rewrite cardsPerRowOf_quot by exact Hw.
  rewrite Z.quot_div_nonneg by lia.
  enough (2 <= width / 22) by lia. apply Z.div_le_lower_bound; lia.
Qed.

Lemma cardsPerRowOf_narrow (width : Z) :
  isInt64 width -> width < 22 -> cardsPerRowOf width < 0.
Proof.
  intros Hw H22. rewrite cardsPerRowOf_quot by exact Hw.
  enough (Z.quot width 22 <= 0) by lia.
  destruct (Z.le_gt_cases 0 width).
  - rewrite Z.quot_small by lia. lia.
  - apply Z.quot_le_upper_bound; lia.
Qed.

Lemma cardsOf_app (a b : list line) : cardsOf (a ++ b) = cardsOf a ++ cardsOf b.
Proof. unfold cardsOf. now rewrite map_app, concat_app. Qed.

Lemma repoNamesOf_app (a b : list line) :
  repoNamesOf (a ++ b) = repoNamesOf a ++ repoNamesOf b.
Proof. unfold repoNamesOf. now rewrite map_app, concat_app. Qed.

Lemma cardsOf_rows (rows : list (list string)) :
  cardsOf (map CardRowLine rows) = concat rows.
Proof. unfold cardsOf. rewrite map_map. now rewrite map_id. Qed.

Lemma repoNamesOf_rows (rows : list (list string)) :
  repoNamesOf (map CardRowLine rows) = [].
Proof. unfold repoNamesOf. induction rows; [reflexivity | exact IHrows]. Qed.

Lemma sumBillableMs_unbilled (ws : list workflow) :
  unbilled ws -> sumBillableMs 0 ws = 0.
Proof.
  unfold sumBillableMs. induction 1 as [|w ws Hw _ IH]; [reflexivity|].
  simpl. rewrite Hw. exact IH.
Qed.

Section MainProps.

Variable gh : list string -> error + string.
Variable unmarshalRepo : string -> option repositoryData.
Variable unmarshalRepos : string -> option (list (option repositoryData)).
Variable unmarshalWorkflows : string -> option (list workflowsPayload).
Variable unmarshalRuns : string -> option (list runPayload).
Variable unmarshalBillable : string -> option billablePayload.
Variable now : Z.
Variable renderCard : workflow -> string.

(** With at least one card to a row the second loop prints, for every
    repository that has workflows, its heading and all its cards. *)
Lemma print_loop_wide (c : Z) (repos : list repositoryData) :
  1 <= c ->
  forall printed, exists body,
    print_loop renderCard c repos printed = (printed ++ body, Returned None)
    /\ cardsOf body = map renderCard (concat (map Workflows repos))
    /\ repoNamesOf body = map RepoName (List.filter hasWorkflows repos).
Proof.
  intros Hc. induction repos as [|r repos IH]; intros printed; simpl.
  - exists []. rewrite app_nil_r. repeat split.
  - unfold hasWorkflows at 1.
    destruct (Nat.eqb (length (Workflows r)) 0) eqn:Hempty; simpl.
    + apply Nat.eqb_eq, length_zero_iff_nil in Hempty. rewrite Hempty. apply IH.
    + destruct (cardGrid_shape renderCard c (Workflows r) Hc)
        as (rows & Hgrid & _ & Hcat & _).
      rewrite Hgrid.
      match goal with
      | |- context [print_loop _ _ _ ?p] =>
          destruct (IH p) as (body & Hrun & Hcards & Hnames)
      end.
      exists ([BlankLine; RepoLine (RepoName r); BlankLine]
                ++ map CardRowLine rows ++ body).
      split; [rewrite Hrun, <- !app_assoc; reflexivity|]. split.
      * rewrite cardsOf_app, cardsOf_app, cardsOf_rows, Hcards, Hcat, map_app.
        reflexivity.
      * rewrite repoNamesOf_app, repoNamesOf_app, repoNamesOf_rows, Hnames.
        reflexivity.
Qed.

(** With a negative number of cards to a row the second loop prints the
    heading of the first repository that has workflows and panics in its
    grid; it prints nothing when no repository has a workflow. *)
Lemma print_loop_narrow (c : Z) (repos : list repositoryData) :
  c < 0 ->
  forall printed,
    print_loop renderCard c repos printed
    = match List.find hasWorkflows repos with
      | Some r =>
          (printed ++ [BlankLine; RepoLine (RepoName r); BlankLine], Panicked)
      | None => (printed, Returned None)
      end.
Proof.
  intros Hc. induction repos as [|r repos IH]; intros printed; simpl;
    [reflexivity|].
  unfold hasWorkflows at 1.
  destruct (Nat.eqb (length (Workflows r)) 0) eqn:Hempty; simpl; [apply IH|].
  rewrite cardGrid_negative;
    [reflexivity | exact Hc | intros Hnil; rewrite Hnil in Hempty; discriminate].
Qed.

(** The first loop, when it succeeds: no pointer of the listing is nil,
    every repository keeps its name and its flag, and receives the workflows
    that [getWorkflows] returns for it; the total adds up their
    [BillableMs]. *)
Lemma fetch_loop_success last repos : forall fetched0 total0 log log' fetched total,
  fetch_loop gh unmarshalWorkflows unmarshalRuns unmarshalBillable now
    last repos fetched0 total0 log = (log', inr (Some (fetched, total))) ->
  exists rs new,
    repos = map Some rs
    /\ fetched = fetched0 ++ new
    /\ Forall2 (fun r f =>
                  RepoName f = RepoName r /\ Private f = Private r
                  /\ exists l,
                       snd (getWorkflows gh unmarshalWorkflows unmarshalRuns
                              unmarshalBillable now r last l)
                       = inr (Workflows f))
               rs new
    /\ total = fold_left (fun t f => sumBillableMs t (Workflows f)) new total0.
Proof.
  induction repos as [|[r|] repos IH]; intros f0 t0 log log' fetched total Hrun;
    simpl in Hrun.
  - injection Hrun as _ <- <-. exists [], []. rewrite app_nil_r.
    split; [reflexivity|]. split; [reflexivity|].
    split; [constructor | reflexivity].
  - unfold bind at 1 in Hrun.
    destruct (getWorkflows gh unmarshalWorkflows unmarshalRuns unmarshalBillable
                now r last log) as [log1 [e | workflows]] eqn:Hg;
      [discriminate Hrun|].
    apply IH in Hrun as (rs & new & -> & -> & Hnew & ->).
    exists (r :: rs). eexists (_ :: new). split; [reflexivity|].
    split; [rewrite <- app_assoc; reflexivity|].
    split; [|reflexivity].
    constructor; [|exact Hnew]. simpl. split; [reflexivity|].
    split; [reflexivity|]. exists log. now rewrite Hg.
  - discriminate Hrun.
Qed.

(** The first loop panics only at a nil pointer of the listing. *)
Lemma fetch_loop_panic last repos : forall fetched0 total0 log log',
  fetch_loop gh unmarshalWorkflows unmarshalRuns unmarshalBillable now
    last repos fetched0 total0 log = (log', inr None) ->
  exists rs rest, repos = map Some rs ++ None :: rest.
Proof.
  induction repos as [|[r|] repos IH]; intros f0 t0 log log' Hrun;
    simpl in Hrun.
  - discriminate Hrun.
  - unfold bind at 1 in Hrun.
    destruct (getWorkflows gh unmarshalWorkflows unmarshalRuns unmarshalBillable
                now r last log) as [log1 [e | workflows]] eqn:Hg;
      [discriminate Hrun|].
    apply IH in Hrun as (rs & rest & ->). now exists (r :: rs), rest.
  - now exists [], repos.
Qed.

(** With names on the command line no pointer of the result is nil. *)
Lemma explicitRepos_loop_present selector names : forall result log log' repos,
  explicitRepos_loop gh unmarshalRepo selector names result log
  = (log', inr repos) ->
  None ∈ repos -> None ∈ result.
Proof.
  induction names as [|name names IH]; intros result log log' repos Hrun Hin;
    simpl in Hrun.
  - injection Hrun as _ <-. exact Hin.
  - destruct (getRepo gh unmarshalRepo selector name log) as [log1 [e | r]];
      [discriminate Hrun|].
    specialize (IH _ _ _ _ Hrun Hin).
    apply elem_of_app in IH as [IH | IH]; [exact IH|].
    apply list_elem_of_singleton in IH. discriminate IH.
Qed.

Lemma populateRepos_nil_listing opts log log' repos :
  populateRepos gh unmarshalRepo unmarshalRepos opts log = (log', inr repos) ->
  None ∈ repos -> Repositories opts = [].
Proof.
  unfold populateRepos. destruct (Repositories opts) as [|n ns]; [reflexivity|].
  change (Nat.ltb 0 (length (n :: ns))) with true. cbv iota.
  intros Hrun Hin. apply explicitRepos_loop_present in Hrun; [|exact Hin].
  apply elem_of_nil in Hrun. contradiction.
Qed.

End MainProps.

Lemma print_loop_prefix (renderCard : workflow -> string) (c : Z)
    (repos : list repositoryData) :
  forall printed, exists body,
    fst (print_loop renderCard c repos printed) = printed ++ body
    /\ forall err, snd (print_loop renderCard c repos printed)
                   <> Returned (Some err).
Proof.
  induction repos as [|r repos IH]; intros printed; simpl.
  - exists []. rewrite app_nil_r. split; [reflexivity | discriminate].
  - destruct (Nat.eqb (length (Workflows r)) 0); [apply IH|].
    destruct (cardGrid renderCard c (Workflows r)) as [rows|]; simpl.
    + match goal with
      | |- context [print_loop _ _ _ ?p] => destruct (IH p) as (body & Hrun & Herr)
      end.
      eexists. split; [rewrite Hrun, <- !app_assoc; reflexivity | exact Herr].
    + eexists. split; [reflexivity | discriminate].
Qed.

Lemma getWorkflows_public_unbilled
    (gh : list string -> error + string)
    (unmarshalWorkflows : string -> option (list workflowsPayload))
    (unmarshalRuns : string -> option (list runPayload))
    (unmarshalBillable : string -> option billablePayload)
    (now : Z) (repoData : repositoryData) (last : Z)
    (log : list (list string)) (out : list workflow) :
  Private repoData = false ->
  snd (getWorkflows gh unmarshalWorkflows unmarshalRuns unmarshalBillable now
         repoData last log) = inr out ->
  unbilled out.
Proof.
  intros Hpub. unfold getWorkflows. rewrite Hpub.
  unfold bind, callGh, decode, ret, throw.
  destruct (gh _) as [e | stdout]; simpl; [intros [=]|].
  destruct (unmarshalWorkflows stdout) as [p|]; simpl; [|intros [=]].
  match goal with
  | |- context [workflows_loop _ _ _ _ _ _ _ _ ?o ?l] =>
      destruct (workflows_loop_public gh unmarshalRuns unmarshalBillable now last p o l)
        as [_ Hres]; [constructor|]
  end.
  apply Hres.
Qed.

(** X13.  [_main] prints all or nothing of the header: when it returns an
    error (a repository, a listing, a run or a timing could not be fetched
    or decoded), and when the width of the terminal cannot be read, it has
    printed no line at all. *)
Theorem main_silent_on_failure :
  forall (gh : list string -> error + string)
         (unmarshalRepo : string -> option repositoryData)
         (unmarshalRepos : string -> option (list (option repositoryData)))
         (unmarshalWorkflows : string -> option (list workflowsPayload))
         (unmarshalRuns : string -> option (list runPayload))
         (unmarshalBillable : string -> option billablePayload)
         (now : Z) (renderCard : workflow -> string)
         (terminalWidth : option Z) (opts : options) (log : list (list string)),
    let res := _main gh unmarshalRepo unmarshalRepos unmarshalWorkflows
                 unmarshalRuns unmarshalBillable now renderCard terminalWidth
                 opts log in
    (exists err, snd (snd res) = Returned (Some err)) \/ terminalWidth = None ->
    fst (snd res) = [].
Proof.
  intros gh uR uRs uW uRu uB now renderCard tw opts log res Hfail.
  subst res. unfold _main in *.
  destruct (populateRepos gh uR uRs opts log) as [log1 [e | repos]];
    [reflexivity|].
  destruct tw as [width|]; [|reflexivity].
  destruct (fetch_loop gh uW uRu uB now (Last opts) repos [] 0 log1)
    as [log2 [e | [[fetched total]|]]]; [reflexivity | | reflexivity].
  destruct Hfail as [[err Herr] | Hnone]; [|discriminate Hnone].
  simpl in Herr.
  destruct (print_loop_prefix renderCard (cardsPerRowOf width) fetched
              [TitleLine (Selector opts) (Last opts); SubTitleLine total])
    as (body & _ & Hno).
  now apply Hno in Herr.
Qed.

Lemma main_silent_on_failure_witness :
  fst (snd (accountMain (Some 80) ["missing"])) = [].
Proof.
  apply main_silent_on_failure. left. eexists. vm_compute. reflexivity.
Defined.

(** X14.  On a terminal of 44 columns or more [_main] panics only at a nil
    pointer in the listing of the repositories of the organisation or user
    (a [null] element of the array), and then it has printed nothing; with
    names on the command line it does not panic.  When it returns without
    error no pointer was nil and it has printed the title, the total of the
    [BillableMs] of all workflows fetched, and then, for the repositories in
    the order of their listing, one heading for every repository that has
    workflows and the card of every workflow, each once and in the order of
    the fetch. *)
Theorem main_wide_terminal :
  forall (gh : list string -> error + string)
         (unmarshalRepo : string -> option repositoryData)
         (unmarshalRepos : string -> option (list (option repositoryData)))
         (unmarshalWorkflows : string -> option (list workflowsPayload))
         (unmarshalRuns : string -> option (list runPayload))
         (unmarshalBillable : string -> option billablePayload)
         (now : Z) (renderCard : workflow -> string)
         (width : Z) (opts : options) (log : list (list string)),
    isInt64 width -> 44 <= width ->
    let res := _main gh unmarshalRepo unmarshalRepos unmarshalWorkflows
                 unmarshalRuns unmarshalBillable now renderCard (Some width)
                 opts log in
    (snd (snd res) = Panicked ->
     fst (snd res) = []
     /\ Repositories opts = []
     /\ exists (rs : list repositoryData) (rest : list (option repositoryData)),
          snd (populateRepos gh unmarshalRepo unmarshalRepos opts log)
          = inr (map Some rs ++ None :: rest))
    /\ (snd (snd res) = Returned None ->
        exists (repos fetched : list repositoryData) (body : list line),
          snd (populateRepos gh unmarshalRepo unmarshalRepos opts log)
          = inr (map Some repos)
          /\ Forall2 (fun r f =>
                        RepoName f = RepoName r /\ Private f = Private r
                        /\ exists l,
                             snd (getWorkflows gh unmarshalWorkflows unmarshalRuns
                                    unmarshalBillable now r (Last opts) l)
                             = inr (Workflows f))
                     repos fetched
          /\ fst (snd res)
             = TitleLine (Selector opts) (Last opts)
               :: SubTitleLine
                    (fold_left (fun t f => sumBillableMs t (Workflows f)) fetched 0)
               :: body
          /\ cardsOf body = map renderCard (concat (map Workflows fetched))
          /\ repoNamesOf body = map RepoName (List.filter hasWorkflows fetched)).
Proof.
  intros gh uR uRs uW uRu uB now renderCard width opts log Hw H44 res.
  subst res. unfold _main.
  destruct (populateRepos gh uR uRs opts log) as [log1 [e | repos]] eqn:Hpop;
    [split; intros [=]|].
  destruct (fetch_loop gh uW uRu uB now (Last opts) repos [] 0 log1)
    as [log2 [e | [[fetched total]|]]] eqn:Hfetch;
    [split; intros [=]| |].
  - apply fetch_loop_success in Hfetch as (rs & new & -> & -> & Hnew & ->).
    simpl.
    destruct (print_loop_wide renderCard (cardsPerRowOf width) new
                (cardsPerRowOf_wide width Hw H44)
                [TitleLine (Selector opts) (Last opts);
                 SubTitleLine (fold_left (fun t f => sumBillableMs t (Workflows f)) new 0)])
      as (body & Hrun & Hcards & Hnames).
    rewrite Hrun. simpl. split; [intros [=]|]. intros _.
    exists rs, new, body. repeat split; assumption.
  - apply fetch_loop_panic in Hfetch as (rs & rest & ->). simpl.
    split; [|intros [=]]. intros _. split; [reflexivity|]. split.
    + eapply populateRepos_nil_listing; [exact Hpop|].
      apply elem_of_app. right. left.
    + now exists rs, rest.
Qed.

Lemma main_wide_terminal_witness :
  snd (snd (ghostMain (Some 80))) = Panicked
  /\ fst (snd (ghostMain (Some 80))) = []
  /\ snd (populateRepos accountGh accountRepo accountRepos
            {| Repositories := []; Last := 24 * GoTime.Hour;
               Selector := "ghost" |} [])
     = inr [Some appRepo; None]
  /\ exists body,
       fst (snd (accountMain (Some 80) []))
       = TitleLine "acme" (24 * GoTime.Hour) :: SubTitleLine 120000 :: body
       /\ cardsOf body = ["build"; "docs"].
Proof.
  assert (Hpanic : snd (snd (ghostMain (Some 80))) = Panicked)
    by (vm_compute; reflexivity).
  split; [exact Hpanic|].
  split; [|split; [vm_compute; reflexivity|]].
  - refine (proj1 (proj1 (main_wide_terminal accountGh accountRepo accountRepos
                            accountWorkflows sampleRunsOf sampleBillable
                            sampleNow Name 80
                            {| Repositories := []; Last := 24 * GoTime.Hour;
                               Selector := "ghost" |} [] _ _) Hpanic)).
    + vm_compute. split; discriminate.
    + vm_compute. discriminate.
  - destruct (proj2 (main_wide_terminal accountGh accountRepo accountRepos
                       accountWorkflows sampleRunsOf sampleBillable
                       sampleNow Name 80
                       {| Repositories := []; Last := 24 * GoTime.Hour;
                          Selector := "acme" |} []
                       ltac:(vm_compute; split; discriminate)
                       ltac:(vm_compute; discriminate))
                    ltac:(vm_compute; reflexivity))
      as (repos & fetched & body & Hpop & Hfetched & Hlines & Hcards & _).
    assert (Hout : fst (snd (accountMain (Some 80) []))
                   = [ TitleLine "acme" (24 * GoTime.Hour); SubTitleLine 120000;
                       BlankLine; RepoLine "acme/app"; BlankLine;
                       CardRowLine ["build"; "docs"] ])
      by (vm_compute; reflexivity).
    unfold accountMain in Hout. rewrite Hout in Hlines.
    injection Hlines as _ Hbody. subst body.
    eexists. split; [reflexivity|]. vm_compute. reflexivity.
Defined.

(** What the sample account prints on 80 columns: two cards to a row. *)
Example accountMain_80 :
  snd (accountMain (Some 80) [])
  = ([ TitleLine "acme" (24 * GoTime.Hour); SubTitleLine 120000;
       BlankLine; RepoLine "acme/app"; BlankLine;
       CardRowLine ["build"; "docs"] ],
     Returned None).
Proof. vm_compute. reflexivity. Qed.

(** X15.  When every repository listed is public, the total billable time
    that [_main] prints under the title is 0. *)
Theorem main_public_total_zero :
  forall (gh : list string -> error + string)
         (unmarshalRepo : string -> option repositoryData)
         (unmarshalRepos : string -> option (list (option repositoryData)))
         (unmarshalWorkflows : string -> option (list workflowsPayload))
         (unmarshalRuns : string -> option (list runPayload))
         (unmarshalBillable : string -> option billablePayload)
         (now : Z) (renderCard : workflow -> string)
         (terminalWidth : option Z) (opts : options) (log : list (list string))
         (repos : list (option repositoryData))
         (title : line) (total : Z) (rest : list line),
    snd (populateRepos gh unmarshalRepo unmarshalRepos opts log) = inr repos ->
    Forall (fun o => forall r, o = Some r -> Private r = false) repos ->
    fst (snd (_main gh unmarshalRepo unmarshalRepos unmarshalWorkflows
                unmarshalRuns unmarshalBillable now renderCard terminalWidth
                opts log))
    = title :: SubTitleLine total :: rest ->
    total = 0.
Proof.
  intros gh uR uRs uW uRu uB now renderCard tw opts log repos title total rest
    Hrepos Hpub. unfold _main.
  destruct (populateRepos gh uR uRs opts log) as [log1 res]. simpl in Hrepos.
  subst res. destruct tw as [width|]; [|intros [=]].
  destruct (fetch_loop gh uW uRu uB now (Last opts) repos [] 0 log1)
    as [log2 [e | [[fetched total']|]]] eqn:Hfetch;
    [intros [=] | | intros [=]].
  apply fetch_loop_success in Hfetch as (rs & new & -> & -> & Hnew & ->). simpl.
  assert (Hzero : fold_left (fun t f => sumBillableMs t (Workflows f)) new 0 = 0).
  { clear -Hnew Hpub. induction Hnew as [|r f rs fs (_ & _ & l & Hg) _ IH];
      [reflexivity|].
    apply Forall_cons in Hpub as [Hr Hpub]. simpl.
    rewrite sumBillableMs_unbilled; [now apply IH|].
    eapply getWorkflows_public_unbilled; [now apply Hr | exact Hg]. }
  rewrite Hzero.
  destruct (print_loop_prefix renderCard (cardsPerRowOf width) new
              [TitleLine (Selector opts) (Last opts); SubTitleLine 0])
    as (body & Hrun & _).
  rewrite Hrun. intros [= _ <- _]. reflexivity.
Qed.

Lemma main_public_total_zero_witness :
  snd (populateRepos accountGh accountRepo accountRepos
         {| Repositories := ["site"]; Last := 24 * GoTime.Hour;
            Selector := "acme" |} []) = inr [Some siteRepo]
  /\ fst (snd (accountMain (Some 80) ["site"]))
     = [TitleLine "acme" (24 * GoTime.Hour); SubTitleLine 0].
Proof.
  split; [vm_compute; reflexivity|].
  assert (H : exists total,
             fst (snd (accountMain (Some 80) ["site"]))
             = [TitleLine "acme" (24 * GoTime.Hour); SubTitleLine total]).
  { eexists. vm_compute. reflexivity. }
  destruct H as [total Hlines]. rewrite Hlines.
  enough (total = 0) as -> by reflexivity.
  apply (main_public_total_zero accountGh accountRepo accountRepos
           accountWorkflows sampleRunsOf sampleBillable sampleNow Name (Some 80)
           {| Repositories := ["site"]; Last := 24 * GoTime.Hour;
              Selector := "acme" |} [] [Some siteRepo]
           (TitleLine "acme" (24 * GoTime.Hour)) total []).
  - vm_compute. reflexivity.
  - apply Forall_cons_2; [intros r [= <-]; reflexivity | apply Forall_nil_2].
  - exact Hlines.
Defined.

(** X16.  On a terminal narrower than 22 columns [_main] prints no card.
    Once the repositories and their workflows are fetched it prints the
    title and the total, then panics at the first repository that has a
    workflow, after the three lines of the heading of that repository and
    nothing else; when no repository has a workflow it prints the title and
    the total and returns without error. *)
Theorem main_narrow_terminal :
  forall (gh : list string -> error + string)
         (unmarshalRepo : string -> option repositoryData)
         (unmarshalRepos : string -> option (list (option repositoryData)))
         (unmarshalWorkflows : string -> option (list workflowsPayload))
         (unmarshalRuns : string -> option (list runPayload))
         (unmarshalBillable : string -> option billablePayload)
         (now : Z) (renderCard : workflow -> string)
         (width : Z) (opts : options) (log : list (list string)),
    isInt64 width -> width < 22 ->
    let res := _main gh unmarshalRepo unmarshalRepos unmarshalWorkflows
                 unmarshalRuns unmarshalBillable now renderCard (Some width)
                 opts log in
    cardsOf (fst (snd res)) = []
    /\ forall repos log1 fetched total log2,
         populateRepos gh unmarshalRepo unmarshalRepos opts log
         = (log1, inr repos) ->
         fetch_loop gh unmarshalWorkflows unmarshalRuns unmarshalBillable now
           (Last opts) repos [] 0 log1 = (log2, inr (Some (fetched, total))) ->
         total = fold_left (fun t f => sumBillableMs t (Workflows f)) fetched 0
         /\ snd res
            = match List.find hasWorkflows fetched with
              | Some r =>
                  ([TitleLine (Selector opts) (Last opts); SubTitleLine total;
                    BlankLine; RepoLine (RepoName r); BlankLine], Panicked)
              | None =>
                  ([TitleLine (Selector opts) (Last opts); SubTitleLine total],
                   Returned None)
              end.
Proof.
  intros gh uR uRs uW uRu uB now renderCard width opts log Hw H22 res.
  subst res. unfold _main.
  destruct (populateRepos gh uR uRs opts log) as [log1 [e | repos]];
    [split; [reflexivity | intros ? ? ? ? ? [=]]|].
  destruct (fetch_loop gh uW uRu uB now (Last opts) repos [] 0 log1)
    as [log2 [e | [[fetched total]|]]] eqn:Hfetch.
  - split; [reflexivity|]. intros ? ? ? ? ? [= <- <-] Hf.
    rewrite Hfetch in Hf. discriminate Hf.
  - pose proof (print_loop_narrow renderCard (cardsPerRowOf width) fetched
                  (cardsPerRowOf_narrow width Hw H22)
                  [TitleLine (Selector opts) (Last opts); SubTitleLine total])
      as Hprint.
    simpl. split.
    + rewrite Hprint. destruct (List.find hasWorkflows fetched); reflexivity.
    + intros ? ? ? ? ? [= <- <-] Hf. rewrite Hfetch in Hf.
      injection Hf as _ <- <-. split.
      * apply fetch_loop_success in Hfetch as (rs & new & _ & -> & _ & ->).
        reflexivity.
      * rewrite Hprint. destruct (List.find hasWorkflows fetched); reflexivity.
  - split; [reflexivity|]. intros ? ? ? ? ? [= <- <-] Hf.
    rewrite Hfetch in Hf. discriminate Hf.
Qed.

Lemma main_narrow_terminal_witness :
  snd (accountMain (Some 20) [])
  = ([TitleLine "acme" (24 * GoTime.Hour); SubTitleLine 120000;
      BlankLine; RepoLine "acme/app"; BlankLine], Panicked)
  /\ cardsOf (fst (snd (accountMain (Some 20) []))) = [].
Proof.
  destruct (main_narrow_terminal accountGh accountRepo accountRepos
              accountWorkflows sampleRunsOf sampleBillable sampleNow Name
              20 {| Repositories := []; Last := 24 * GoTime.Hour;
                    Selector := "acme" |} [])
    as [Hcards Hlines].
  - vm_compute. split; discriminate.
  - vm_compute. reflexivity.
  - split; [|exact Hcards].
    refine (eq_trans (proj2 (Hlines _ _ _ _ _ _ _)) _);
      [vm_compute; reflexivity | vm_compute; reflexivity | vm_compute; reflexivity].
Defined.

(** ** The average over more than five runs *)

Lemma sumZ_constant (s : Z) (rs : list run) :
  Forall (fun r => wholeSeconds r = s) rs ->
  sumZ (map wholeSeconds rs) = Z.of_nat (length rs) * s.
Proof.
  induction 1 as [|r rs Hr _ IH]; [reflexivity|].
  change (wholeSeconds r + sumZ (map wholeSeconds rs)
          = Z.of_nat (S (length rs)) * s).
  rewrite Hr, IH. lia.
Qed.

(** X17.  The divisor is 5 but six runs are summed: for a workflow with six
    runs or more whose runs all count for the same [s] whole seconds,
    between 5 and [10^9], the average shown is six fifths of [s] seconds,
    truncated to a second; it is more than [s] seconds, and more than the
    elapsed time of every run that lasted less than [s + 1] seconds. *)
Theorem AverageElapsed_six_equal_runs :
  forall (w : workflow) (s : Z),
    (6 <= length (Runs w))%nat ->
    Forall (fun r => GoTime.SecondsInt (Elapsed r) = s) (Runs w) ->
    5 <= s <= 10 ^ 9 ->
    AverageElapsed w = Z.quot (6 * s) 5 * GoTime.Second
    /\ s * GoTime.Second < AverageElapsed w
    /\ Forall (fun r => Elapsed r < (s + 1) * GoTime.Second ->
                        Elapsed r < AverageElapsed w) (Runs w).
Proof.
  intros w s Hlen Hall Hs.
  assert (Hsum : sumZ (map wholeSeconds (examined (Runs w))) = 6 * s).
  { rewrite (sumZ_constant s).
    - unfold examined. rewrite length_take.
      change (Z.to_nat defaultMaxRuns + 1)%nat with 6%nat.
      rewrite Nat.min_l by lia. reflexivity.
    - unfold examined. apply Forall_take. exact Hall. }
  assert (Hq : Z.quot (6 * s) 5 = (6 * s) / 5) by (apply Z.quot_div_nonneg; lia).
  pose proof (Z.div_mod (6 * s) 5 ltac:(lia)) as Hdm5.
  pose proof (Z.mod_pos_bound (6 * s) 5 ltac:(lia)) as Hmod5.
  assert (Havg : AverageElapsed w = Z.quot (6 * s) 5 * GoTime.Second).
  { rewrite AverageElapsed_spec;
      [|rewrite Hsum; unfold isInt64, minInt64, maxInt64; lia].
    rewrite Hsum. change defaultMaxRuns with 5. apply ParseSeconds_fits.
    unfold GoTime.Second, GoTime.maxDuration, maxInt64. lia. }
  split; [exact Havg|]. rewrite Havg, Hq. unfold GoTime.Second.
  split; [lia|]. apply Forall_forall. intros r _ Hr. lia.
Qed.

Lemma AverageElapsed_six_equal_runs_witness :
  AverageElapsed
    {| Name := "ci"; Runs := replicate 6 {| Finished := 0;
                                            Elapsed := 16777219999999999;
                                            Status := "completed";
                                            Conclusion := "success";
                                            URL := "" |};
       BillableMs := 0 |}
  = 20132664 * GoTime.Second
  /\ 16777220 * GoTime.Second
     < AverageElapsed
         {| Name := "ci"; Runs := replicate 6 {| Finished := 0;
                                                 Elapsed := 16777219999999999;
                                                 Status := "completed";
                                                 Conclusion := "success";
                                                 URL := "" |};
            BillableMs := 0 |}.
Proof.
  refine ((fun H => conj (proj1 H) (proj1 (proj2 H)))
            (AverageElapsed_six_equal_runs _ 16777220 _ _ _)).
  - simpl. lia.
  - simpl. repeat (apply Forall_cons_2; [vm_compute; reflexivity|]).
    apply Forall_nil_2.
  - vm_compute. split; discriminate.
Defined.

(** ** The value of [--last] *)

Lemma string_get_last (s : string) (c : ascii) :
  String.get (String.length (s +:+ String c EmptyString) - 1)
             (s +:+ String c EmptyString) = Some c.
Proof.
  rewrite string_length_app. simpl String.length.
  replace (String.length s + 1 - 1)%nat with (String.length s) by lia.
  induction s as [|a s IH]; [reflexivity | exact IH].
Qed.

Lemma string_init (s : string) (c : ascii) :
  substring 0 (String.length (s +:+ String c EmptyString) - 1)
            (s +:+ String c EmptyString) = s.
Proof.
  rewrite string_length_app. simpl String.length.
  replace (String.length s + 1 - 1)%nat with (String.length s) by lia.
  apply substring_app_exact.
Qed.

(** X18.  A value of [--last] in days, the digits read by [Atoi] as [n]
    followed by ["d"], with [n * 24] in the 64-bit range: up to 106751 days
    (before or after) the window is exactly [n] times 24 hours, and beyond
    that [parseArgs] fails with the error of [ParseDuration]. *)
Theorem parseArgs_days :
  forall (Atoi ParseDuration : string -> option Z)
         (selector : string) (repositories : list string)
         (digits : string) (n : Z),
    Atoi digits = Some n ->
    isInt64 (n * 24) ->
    parseArgs Atoi ParseDuration [selector] repositories (digits +:+ "d")
    = if Z.abs n <=? 106751
      then Some (inr {| Repositories := repositories;
                        Last := n * (24 * GoTime.Hour);
                        Selector := selector |})
      else Some (inl FailedToParseDuration).
Proof.
  intros Atoi PD selector repositories digits n Hn Hrange.
  unfold parseArgs, parseLast. simpl negb. cbv iota.
  rewrite string_get_last, string_init, Hn.
  change (Ascii.eqb "d" "d") with true. cbv iota.
  rewrite wrap64_id by exact Hrange.
  unfold ParseHours, maxParseHours, GoTime.Hour, GoTime.Second.
  change (2 ^ 63 / (3600 * 1000000000)) with 2562047.
  destruct (Z.ltb_spec 2562047 (Z.abs (n * 24)));
    destruct (Z.leb_spec (Z.abs n) 106751); try lia; [reflexivity|].
  simpl. do 3 f_equal. lia.
Qed.

Lemma parseArgs_days_witness :
  parseArgs (fun s => if String.eqb s "30" then Some 30 else None)
            (fun _ => None) ["acme"] [] "30d"
  = Some (inr {| Repositories := []; Last := 30 * (24 * GoTime.Hour);
                 Selector := "acme" |}).
Proof.
  exact (parseArgs_days (fun s => if String.eqb s "30" then Some 30 else None)
           (fun _ => None) "acme" [] "30" 30 eq_refl
           ltac:(vm_compute; split; discriminate)).
Defined.

(** X19.  The unit of [--last] is its last byte: a value that ends with any
    byte other than ["h"] and ["d"] is rejected with the error about the
    report duration, whatever [Atoi] and [ParseDuration] accept (so ["90m"]
    and ["1h30m"] are rejected). *)
Theorem parseArgs_unit :
  forall (Atoi ParseDuration : string -> option Z)
         (selector : string) (repositories : list string)
         (value : string) (unit : ascii),
    unit <> "h"%char -> unit <> "d"%char ->
    parseArgs Atoi ParseDuration [selector] repositories
              (value +:+ String unit EmptyString)
    = Some (inl BadReportDuration).
Proof.
  intros Atoi PD selector repositories value unit Hh Hd.
  unfold parseArgs, parseLast. simpl negb. cbv iota.
  rewrite string_get_last.
  destruct (Ascii.eqb_spec unit "d"); [contradiction|].
  destruct (Ascii.eqb_spec unit "h"); [contradiction|]. reflexivity.
Qed.

Lemma parseArgs_unit_witness :
  parseArgs (fun _ => Some 30) (fun _ => Some (90 * 60 * GoTime.Second))
            ["acme"] [] "90m"
  = Some (inl BadReportDuration).
Proof.
  apply (parseArgs_unit (fun _ => Some 30) (fun _ => Some (90 * 60 * GoTime.Second))
           "acme" [] "90" "m"%char); discriminate.
Defined.
